(** * The asset store of packages/shared/assetdb.ts

    A shallow embedding of the compression-transparent asset store:
    the content-type allow-lists, the codec registry ([compress],
    [getDataType], [decompress]), the path resolver ([getAssetDir],
    [getAssetPath]) and the store operations ([saveAsset],
    [saveAssetFromFile], [readAsset], [createAssetReadStream],
    [readAssetMetadata], [getAssetSize]).

    What the module imports and does not define itself (zstd.ts, lz4,
    zlib, JSON, the file system's environmental failures) is gathered in
    the class [Platform]; every definition is parametric in it. *)

From Stdlib Require Import ZArith QArith.QArith_base QArith.Qround.
From Stdlib Require Import Strings.String Strings.Byte List Lia DecimalString.
From stdpp Require Import base gmap strings list fin_maps.

Set Warnings "-register-all".

Open Scope string_scope.
Open Scope list_scope.
Open Scope Z_scope.

(** ** Buffers *)

(** A Node [Buffer] is a sequence of bytes. *)
Abbreviation Buffer := (list byte).

(** [a.equals(b)] *)
Fixpoint Buffer_equals (a b : Buffer) : bool :=
  match a, b with
  | [], [] => true
  | x :: a', y :: b' => Byte.eqb x y && Buffer_equals a' b'
  | _, _ => false
  end.

(** [Buffer.alloc(n)]: [n] zero bytes, for a size that is not negative. *)
Definition Buffer_alloc (n : Z) : Buffer := repeat x00 (Z.to_nat n).

(** [data.length] and [asset.byteLength] *)
Definition byteLength (b : Buffer) : Z := Z.of_nat (length b).

(** An index of [subarray], made absolute: a negative index counts from
    the end, and the result is clamped to [0, len]. *)
Definition relative_index (len i : Z) : Z :=
  if i <? 0 then Z.max (len + i) 0 else Z.min i len.

(** [b.subarray(start, end)] *)
Definition subarray (b : Buffer) (start end_ : Z) : Buffer :=
  let len := byteLength b in
  let s := relative_index len start in
  let e := relative_index len end_ in
  take (Z.to_nat (e - s)) (drop (Z.to_nat s) b).

(** ** Content types and the allow-lists *)

Module ASSET_TYPES.
Definition IMAGE_JPEG : string := "image/jpeg".
Definition IMAGE_PNG : string := "image/png".
Definition IMAGE_WEBP : string := "image/webp".
Definition APPLICATION_PDF : string := "application/pdf".
Definition TEXT_HTML : string := "text/html".
Definition VIDEO_MP4 : string := "video/mp4".
End ASSET_TYPES.

(** [new Set<string>([...])]: a JS [Set] keeps each member once. *)
Definition IMAGE_ASSET_TYPES : gset string :=
  list_to_set
    [ASSET_TYPES.IMAGE_JPEG; ASSET_TYPES.IMAGE_PNG; ASSET_TYPES.IMAGE_WEBP].

(** The assets that we allow the users to upload *)
Definition SUPPORTED_UPLOAD_ASSET_TYPES : gset string :=
  IMAGE_ASSET_TYPES
    ∪ list_to_set [ASSET_TYPES.TEXT_HTML; ASSET_TYPES.APPLICATION_PDF].

(** The assets that we allow as a bookmark of type asset *)
Definition SUPPORTED_BOOKMARK_ASSET_TYPES : gset string :=
  IMAGE_ASSET_TYPES ∪ list_to_set [ASSET_TYPES.APPLICATION_PDF].

(** The assets that we support saving in the asset db *)
Definition SUPPORTED_ASSET_TYPES : gset string :=
  SUPPORTED_UPLOAD_ASSET_TYPES
    ∪ list_to_set [ASSET_TYPES.TEXT_HTML; ASSET_TYPES.VIDEO_MP4].

(** [set.has(x)] *)
Definition Set_has (s : gset string) (x : string) : bool := bool_decide (x ∈ s).

(** ** Metadata and JSON *)

(** A [.nullish()] field: missing ([undefined]), [null], or a value. *)
Inductive nullish (A : Type) : Type :=
  | Undefined
  | Null
  | Value (a : A).
Arguments Undefined {A}.
Arguments Null {A}.
Arguments Value {A} a.

(** [z.infer<typeof zAssetMetadataSchema>]. Sizes are byte counts, so the
    [number] of [originalSize] is kept as an integer. *)
Record AssetMetadata : Type := {
  contentType : string;
  fileName : nullish string;
  originalSize : nullish Z
}.

(** [metadata.originalSize = n] *)
Definition set_originalSize (n : Z) (m : AssetMetadata) : AssetMetadata :=
  {| contentType := contentType m;
     fileName := fileName m;
     originalSize := Value n |}.

(** The values [JSON.parse] produces and [JSON.stringify] consumes. *)
Inductive json : Type :=
  | JNull
  | JBool (b : bool)
  | JNumber (n : Z)
  | JString (s : string)
  | JArray (items : list json)
  | JObject (fields : list (string * json)).

(** The own property [key] of a parsed object. *)
Fixpoint property (key : string) (fields : list (string * json)) : option json :=
  match fields with
  | [] => None
  | (k, v) :: rest => if String.eqb k key then Some v else property key rest
  end.

(** What [JSON.stringify(metadata)] serializes: a field that is
    [undefined] is left out, a [null] one is written as [null]. The keys are
    taken in the order of the schema. *)
Definition json_field {A} (key : string) (inj : A -> json) (v : nullish A)
  : list (string * json) :=
  match v with
  | Undefined => []
  | Null => [(key, JNull)]
  | Value a => [(key, inj a)]
  end.

Definition metadata_to_json (m : AssetMetadata) : json :=
  JObject
    (("contentType", JString (contentType m))
       :: json_field "fileName" JString (fileName m)
       ++ json_field "originalSize" JNumber (originalSize m)).

(** [z.string().nullish()] and [z.number().nullish()] on a property:
    [None] is a validation failure. *)
Definition zod_nullish {A} (prj : json -> option A) (v : option json)
  : option (nullish A) :=
  match v with
  | None => Some Undefined
  | Some JNull => Some Null
  | Some j => match prj j with Some a => Some (Value a) | None => None end
  end.

Definition as_string (j : json) : option string :=
  match j with JString s => Some s | _ => None end.

Definition as_number (j : json) : option Z :=
  match j with JNumber n => Some n | _ => None end.

(** [zAssetMetadataSchema.parse(j)]: [contentType] is required, the other
    two fields are optional, unknown keys are dropped. *)
Definition zAssetMetadataSchema_parse (j : json) : option AssetMetadata :=
  match j with
  | JObject fields =>
      match property "contentType" fields with
      | Some (JString ct) =>
          match zod_nullish as_string (property "fileName" fields),
                zod_nullish as_number (property "originalSize" fields) with
          | Some fn, Some sz =>
              Some {| contentType := ct; fileName := fn; originalSize := sz |}
          | _, _ => None
          end
      | _ => None
      end
  | _ => None
  end.

(** ** Paths, the disk and errors *)

(** A path is kept as its list of segments: [path.join(a, b)] appends the
    segments of [b] to those of [a]. User and asset identifiers are single
    segments. The empty list is the empty string, which names no file. *)
Abbreviation path := (list string).

Inductive node : Type :=
  | Dir
  | File (data : Buffer).

(** The calls made on [fs.promises]. *)
Inductive syscall : Type :=
  | SysMkdir (p : path)
  | SysWriteFile (p : path)
  | SysCopyFile (src dst : path)
  | SysRm (p : path)
  | SysAccess (p : path)
  | SysReadFile (p : path)
  | SysStat (p : path).

Inductive errno : Type := ENOENT | EISDIR | ENOTDIR | EEXIST | EIO.

(** What a rejected promise carries. *)
Inductive error : Type :=
  | UnsupportedAssetType
  | AssetFileNotFound (assetId : string)
  | FsError (code : errno) (call : syscall)
  | CodecError
  | SyntaxError
  | ZodError
  | TypeError.

Inductive result (A : Type) : Type :=
  | Ok (a : A)
  | Throw (e : error).
Arguments Ok {A} a.
Arguments Throw {A} e.

(** ** The platform: what the module imports *)

Class Platform : Type := {
  (** [zstd.compress({compressLevel, input})]; [None]: the promise rejects *)
  zstd_compress : Z -> Buffer -> option Buffer;
  (** [zstd.decompress({input})]; [None]: it rejects *)
  zstd_decompress : Buffer -> option Buffer;
  (** [lz4.encodeBound(n)] *)
  lz4_encodeBound : Z -> Z;
  (** [lz4.encodeBlockHC(src, dst, level)]: [dst] as it is left, and the
      size returned; [None]: it throws *)
  lz4_encodeBlockHC : Buffer -> Buffer -> Z -> option (Buffer * Z);
  (** [lz4.decodeBlock(src, dst)]: [dst] as it is left, and the size
      returned; [None]: it throws *)
  lz4_decodeBlock : Buffer -> Buffer -> option (Buffer * Z);
  (** what zlib's [gzip] would hand to its callback; [None]: an error *)
  zlib_gzip : Buffer -> option Buffer;
  (** what zlib's [gunzip] would hand to its callback *)
  zlib_gunzip : Buffer -> option Buffer;
  (** [JSON.stringify], as the bytes [writeFile] stores *)
  JSON_stringify : json -> Buffer;
  (** [JSON.parse] of a file read with encoding utf8; [None]: SyntaxError *)
  JSON_parse : Buffer -> option json;
  (** calls that fail for a reason outside the model (permissions, a full
      disk, an I/O error) *)
  io_fault : syscall -> bool;
  (** the size [stat] reports for a directory *)
  dir_stat_size : Z
}.

(** [serverConfig], as far as the module reads it. *)
Record config : Type := {
  assetsDir : path;
  compressionType : string;
  compressionLevel : Q
}.

(** ** The codec registry *)

Inductive DataType : Type := zstd | lz4 | gzip | none.

Definition zstdHeader : Buffer := [x28; xb5; x2f; xfd].
Definition gzipHeader : Buffer := [x1f; x8b].
Definition lz4Header : Buffer := [x04; x22; x4d; x18].

Definition getDataType (data : Buffer) : DataType :=
  if byteLength data <? 4 then none
  else if Buffer_equals (subarray data 0 4) zstdHeader then zstd
  else if Buffer_equals (subarray data 0 2) gzipHeader then gzip
  else if Buffer_equals (subarray data 0 4) lz4Header then lz4
  else none.

Section Codec.
Context {P : Platform} (serverConfig : config).

Definition COMPRESSION_TYPE : string := compressionType serverConfig.
Definition COMPRESSION_LEVEL : Q := compressionLevel serverConfig.
Definition ROOT_PATH : path := assetsDir serverConfig.

(** [Math.min(Math.max(Math.floor(COMPRESSION_LEVEL), lo), hi)] *)
Definition clamp_level (lo hi : Z) : Z :=
  Z.min (Z.max (Qfloor COMPRESSION_LEVEL) lo) hi.

(** [compress(data, type)]. In the gzip case the pair built in zlib's
    callback is returned to zlib, which drops it; the function itself
    returns its last statement. *)
Definition compress (data : Buffer) (type : string) : result (Buffer * string) :=
  if String.eqb type "zstd" then
    match zstd_compress (clamp_level 1 19) data with
    | Some c => Ok (c, ".zst")
    | None => Throw CodecError
    end
  else if String.eqb type "lz4" then
    let output := Buffer_alloc (lz4_encodeBound (byteLength data)) in
    match lz4_encodeBlockHC data output (clamp_level 3 12) with
    | Some (output, compressedSize) =>
        Ok (subarray output 0 compressedSize, ".lz4")
    | None => Throw CodecError
    end
  else if String.eqb type "gzip" then
    let _callback : Buffer * string :=
      match zlib_gzip data with
      | None => (data, "")
      | Some compressedGzip => (compressedGzip, ".gz")
      end in
    Ok (data, "")
  else Ok (data, "").

(** [decompress(data, type)]: it never rejects. In the gzip case the
    callback's value is dropped as in [compress]. *)
Definition decompress (data : Buffer) (type : DataType) : Buffer :=
  match type with
  | zstd =>
      match zstd_decompress data with
      | Some d => d
      | None => data
      end
  | lz4 =>
      let output := Buffer_alloc (byteLength data) in
      match lz4_decodeBlock data output with
      | Some (output, size) => subarray output 0 size
      | None => data
      end
  | gzip =>
      let _callback : Buffer :=
        match zlib_gunzip data with
        | None => data
        | Some decompressed => decompressed
        end in
      data
  | none => data
  end.

End Codec.

(** ** The world and promises *)

(** A reference to a JS object. *)
Abbreviation loc := positive.

(** What the module can touch: the files below the root, and the metadata
    objects its callers hold references to. *)
Record world : Type := {
  fs : gmap path node;
  heap : gmap loc AssetMetadata
}.

Definition with_fs (f : gmap path node -> gmap path node) (w : world) : world :=
  {| fs := f (fs w); heap := heap w |}.

Definition with_heap (f : gmap loc AssetMetadata -> gmap loc AssetMetadata)
  (w : world) : world :=
  {| fs := fs w; heap := f (heap w) |}.

(** An [async] computation: run on a world, it settles with a value or a
    rejection and leaves a world behind. *)
Definition IO (A : Type) : Type := world -> result A * world.

Definition ret {A} (a : A) : IO A := fun w => (Ok a, w).

Definition throw {A} (e : error) : IO A := fun w => (Throw e, w).

(** [const x = await m; k] *)
Definition bind {A B} (m : IO A) (k : A -> IO B) : IO B :=
  fun w =>
    match m w with
    | (Ok a, w') => k a w'
    | (Throw e, w') => (Throw e, w')
    end.

Declare Scope io_scope.
Delimit Scope io_scope with io.
Notation "x <- m ;; k" := (bind m (fun x => k))
  (at level 100, m at next level, right associativity) : io_scope.
Notation "m ;; k" := (bind m (fun _ => k))
  (at level 100, right associativity) : io_scope.
Open Scope io_scope.

(** A value or a rejection that needs no world. *)
Definition lift {A} (r : result A) : IO A := fun w => (r, w).

Definition or_throw {A} (e : error) (o : option A) : IO A :=
  match o with
  | Some a => ret a
  | None => throw e
  end.

(** [try { body } catch (err) { handler }] *)
Definition try_catch {A} (body : IO A) (handler : error -> IO A) : IO A :=
  fun w =>
    match body w with
    | (Ok a, w') => (Ok a, w')
    | (Throw e, w') => handler e w'
    end.

(** [await Promise.all([a, b])]: both are started and both run to their
    end, whatever the other does; the whole rejects when one of them
    does. Where the module uses it the two write different files, so their
    effects commute; they are run here in the order of the array, and the
    rejection reported is that of the first in that order. *)
Definition Promise_all {A B} (a : IO A) (b : IO B) : IO (A * B) :=
  fun w =>
    let (ra, w1) := a w in
    let (rb, w2) := b w1 in
    (match ra, rb with
     | Ok x, Ok y => Ok (x, y)
     | Throw e, _ => Throw e
     | Ok _, Throw e => Throw e
     end, w2).

(** ** The file system *)

(** The node a path names; the empty path names none. *)
Definition node_at (d : gmap path node) (p : path) : option node :=
  match p with
  | [] => None
  | _ => d !! p
  end.

(** [path.dirname] *)
Definition dirname (p : path) : path := removelast p.

(** The directory the segments are resolved from always exists. *)
Definition is_directory (d : gmap path node) (p : path) : bool :=
  match p with
  | [] => true
  | _ => match d !! p with Some Dir => true | _ => false end
  end.

Definition is_file (d : gmap path node) (p : path) : bool :=
  match node_at d p with Some (File _) => true | _ => false end.

(** The path itself and the directories above it, without the empty one. *)
Definition prefixes (p : path) : list path :=
  map (fun n => take n p) (seq 1 (length p)).

(** [mkdir -p]: every missing directory on the way is made. *)
Definition make_dirs (ps : list path) (d : gmap path node) : gmap path node :=
  foldr (fun q d => match d !! q with None => <[q := Dir]> d | Some _ => d end)
        d ps.

Record Stats : Type := { stat_size : Z }.

Section FileSystem.
Context {P : Platform}.

(** A call is refused by the environment, or does what the disk allows. *)
Definition syscall_run {A} (call : syscall) (body : IO A) : IO A :=
  fun w => if io_fault call then (Throw (FsError EIO call), w) else body w.

(** [fs.promises.access(p)] *)
Definition fs_access (p : path) : IO unit :=
  syscall_run (SysAccess p) (fun w =>
    match node_at (fs w) p with
    | Some _ => (Ok tt, w)
    | None => (Throw (FsError ENOENT (SysAccess p)), w)
    end).

(** [fs.promises.readFile(p)] *)
Definition fs_readFile (p : path) : IO Buffer :=
  syscall_run (SysReadFile p) (fun w =>
    match node_at (fs w) p with
    | Some (File data) => (Ok data, w)
    | Some Dir => (Throw (FsError EISDIR (SysReadFile p)), w)
    | None => (Throw (FsError ENOENT (SysReadFile p)), w)
    end).

(** [fs.promises.stat(p)] *)
Definition fs_stat (p : path) : IO Stats :=
  syscall_run (SysStat p) (fun w =>
    match node_at (fs w) p with
    | Some (File data) => (Ok {| stat_size := byteLength data |}, w)
    | Some Dir => (Ok {| stat_size := dir_stat_size |}, w)
    | None => (Throw (FsError ENOENT (SysStat p)), w)
    end).

(** [fs.promises.mkdir(p, { recursive: true })]: a file on the way refuses
    it before anything is made; an existing directory is no error. *)
Definition fs_mkdir_recursive (p : path) : IO unit :=
  syscall_run (SysMkdir p) (fun w =>
    match p with
    | [] => (Throw (FsError ENOENT (SysMkdir p)), w)
    | _ =>
        if existsb (is_file (fs w)) (prefixes p)
        then (Throw (FsError EEXIST (SysMkdir p)), w)
        else (Ok tt, with_fs (make_dirs (prefixes p)) w)
    end).

(** Creating or replacing the file [p] on behalf of [call]. *)
Definition put_file (call : syscall) (p : path) (data : Buffer) : IO unit :=
  fun w =>
    match p with
    | [] => (Throw (FsError ENOENT call), w)
    | _ =>
        match fs w !! p with
        | Some Dir => (Throw (FsError EISDIR call), w)
        | _ =>
            if is_directory (fs w) (dirname p)
            then (Ok tt, with_fs (insert p (File data)) w)
            else (Throw (FsError ENOENT call), w)
        end
    end.

(** [fs.promises.writeFile(p, data)] *)
Definition fs_writeFile (p : path) (data : Buffer) : IO unit :=
  syscall_run (SysWriteFile p) (put_file (SysWriteFile p) p data).

(** [fs.promises.copyFile(src, dst)] *)
Definition fs_copyFile (src dst : path) : IO unit :=
  syscall_run (SysCopyFile src dst) (fun w =>
    match node_at (fs w) src with
    | Some (File data) => put_file (SysCopyFile src dst) dst data w
    | Some Dir => (Throw (FsError EISDIR (SysCopyFile src dst)), w)
    | None => (Throw (FsError ENOENT (SysCopyFile src dst)), w)
    end).

(** [fs.promises.rm(p)], neither recursive nor forced *)
Definition fs_rm (p : path) : IO unit :=
  syscall_run (SysRm p) (fun w =>
    match node_at (fs w) p with
    | Some (File _) => (Ok tt, with_fs (delete p) w)
    | Some Dir => (Throw (FsError EISDIR (SysRm p)), w)
    | None => (Throw (FsError ENOENT (SysRm p)), w)
    end).

End FileSystem.

(** ** Readable streams *)

(** A [Readable] that is only pushed to: the chunks pushed so far, and
    whether [push(null)] has ended it. *)
Record Readable : Type := {
  pushed : list Buffer;
  ended : bool
}.

Definition new_Readable : Readable := {| pushed := []; ended := false |}.

(** [stream.push(chunk)] *)
Definition push (chunk : Buffer) (s : Readable) : Readable :=
  {| pushed := pushed s ++ [chunk]; ended := ended s |}.

(** [stream.push(null)] *)
Definition push_null (s : Readable) : Readable :=
  {| pushed := pushed s; ended := true |}.


(** ** The asset store *)

Section Store.
Context {P : Platform} (serverConfig : config).

(** Reading a property of the object behind a reference. *)
Definition deref (m : loc) : IO AssetMetadata :=
  fun w => or_throw TypeError (heap w !! m) w.

(** [metadata.originalSize = n], on the caller's object. *)
Definition assign_originalSize (m : loc) (n : Z) : IO unit :=
  fun w => (Ok tt, with_heap (alter (set_originalSize n) m) w).

Definition getAssetDir (userId assetId : string) : path :=
  ROOT_PATH serverConfig ++ [userId; assetId].

Definition saveAsset (userId assetId : string) (asset : Buffer) (metadata : loc)
  : IO unit :=
  md <- deref metadata ;;
  if negb (Set_has SUPPORTED_ASSET_TYPES (contentType md))
  then throw UnsupportedAssetType
  else
    let assetDir := getAssetDir userId assetId in
    fs_mkdir_recursive assetDir ;;
    assign_originalSize metadata (byteLength asset) ;;
    c <- lift (compress serverConfig asset (COMPRESSION_TYPE serverConfig)) ;;
    let '(compressed, extension) := c in
    md <- deref metadata ;;
    Promise_all
      (fs_writeFile (assetDir ++ ["asset.bin" +:+ extension]) compressed)
      (fs_writeFile (assetDir ++ ["metadata.json"])
         (JSON_stringify (metadata_to_json md))) ;;
    ret tt.

Definition saveAssetFromFile (userId assetId : string) (assetPath : path)
  (metadata : loc) : IO unit :=
  md <- deref metadata ;;
  if negb (Set_has SUPPORTED_ASSET_TYPES (contentType md))
  then throw UnsupportedAssetType
  else
    let assetDir := getAssetDir userId assetId in
    fs_mkdir_recursive assetDir ;;
    Promise_all
      (fs_copyFile assetPath (assetDir ++ ["asset.bin"]))
      (fs_writeFile (assetDir ++ ["metadata.json"])
         (JSON_stringify (metadata_to_json md))) ;;
    fs_rm assetPath.

(** The loop of [getAssetPath] over the extensions still to try: an
    [access] that rejects, for whatever reason, moves on to the next. *)
Fixpoint getAssetPath_from (assetDir : path) (exts : list string) : IO path :=
  match exts with
  | [] => ret []
  | ext :: rest =>
      let pathWithExt := assetDir ++ ["asset.bin" +:+ ext] in
      try_catch (fs_access pathWithExt ;; ret pathWithExt)
                (fun _ => getAssetPath_from assetDir rest)
  end.

Definition getAssetPath (assetDir : path) : IO path :=
  getAssetPath_from assetDir [""; ".zst"; ".lz4"; ".gz"].

(** [zAssetMetadataSchema.parse(JSON.parse(metadataStr))] *)
Definition parse_metadata (metadataStr : Buffer) : IO AssetMetadata :=
  j <- or_throw SyntaxError (JSON_parse metadataStr) ;;
  or_throw ZodError (zAssetMetadataSchema_parse j).

Definition readAsset (userId assetId : string) : IO (Buffer * AssetMetadata) :=
  let assetDir := getAssetDir userId assetId in
  assetPath <- getAssetPath assetDir ;;
  match assetPath with
  | [] => throw (AssetFileNotFound assetId)
  | _ =>
      data <- fs_readFile assetPath ;;
      let decompressedData := decompress data (getDataType data) in
      r <- Promise_all (ret decompressedData)
                       (fs_readFile (assetDir ++ ["metadata.json"])) ;;
      let '(asset, metadataStr) := r in
      metadata <- parse_metadata metadataStr ;;
      ret (asset, metadata)
  end.

Definition createAssetReadStream (userId assetId : string)
  (start end_ : option Z) : IO Readable :=
  let assetDir := getAssetDir userId assetId in
  assetPath <- getAssetPath assetDir ;;
  let stream := new_Readable in
  data <- fs_readFile assetPath ;;
  (* logger.debug(getDataType(data)) *)
  let decompressedData := decompress data (getDataType data) in
  let stream :=
    match start, end_ with
    | Some start, Some end_ =>
        let slicedBuffer := subarray decompressedData start end_ in
        push slicedBuffer stream
    | _, _ => push decompressedData stream
    end in
  let stream := push_null stream in
  ret stream.

Definition readAssetMetadata (userId assetId : string) : IO AssetMetadata :=
  let assetDir := getAssetDir userId assetId in
  metadataStr <- fs_readFile (assetDir ++ ["metadata.json"]) ;;
  parse_metadata metadataStr.

Definition getAssetSize (userId assetId : string) : IO Z :=
  metadata <- readAssetMetadata userId assetId ;;
  match originalSize metadata with
  | Value size => ret size
  | Undefined | Null =>
      let assetDir := getAssetDir userId assetId in
      assetPath <- getAssetPath assetDir ;;
      stat <- fs_stat assetPath ;;
      ret (stat_size stat)
  end.

End Store.

(** ** Locating the payload, as a function of the disk *)

Section Locate.
Context {P : Platform}.

(** What [access(p)] answers on a disk: [true] when it resolves. *)
Definition accessible (d : gmap path node) (p : path) : bool :=
  negb (io_fault (SysAccess p))
  && match node_at d p with Some _ => true | None => false end.

(** The first candidate that [access] accepts; the empty path when none. *)
Fixpoint first_accessible (d : gmap path node) (assetDir : path)
  (exts : list string) : path :=
  match exts with
  | [] => []
  | ext :: rest =>
      let pathWithExt := assetDir ++ ["asset.bin" +:+ ext] in
      if accessible d pathWithExt then pathWithExt
      else first_accessible d assetDir rest
  end.

End Locate.

(** ** A platform to run the model on *)

(** Small but genuine instances of what the module imports, so that a run
    of the model on a concrete world shows the bytes a deployment would
    see: a zstd encoder that stores the input in one raw block and a
    decoder for frames of raw and run-length blocks; the lz4 block format
    with a literals-only encoder; JSON texts without white space, for
    strings that need no escape; and the calls in [faults] as the ones the
    environment refuses. The theorems below hold for every platform; this
    one serves their concrete runs. *)
Module Example.

Definition byte_of_N (n : N) : byte := default x00 (Byte.of_N (n mod 256)%N).

(** The [k] low bytes of [n], least significant first, and back. *)
Fixpoint le_bytes (k : nat) (n : N) : Buffer :=
  match k with
  | O => []
  | S k => byte_of_N n :: le_bytes k (n / 256)%N
  end.

Fixpoint le_value (b : Buffer) : N :=
  match b with
  | [] => 0%N
  | x :: rest => (Byte.to_N x + 256 * le_value rest)%N
  end.

(** *** zstd *)

(** A single-segment frame without checksum: the signature, the frame
    header descriptor (20 with a one-byte content size, A0 with a four-byte
    one), the content size, and one last raw block. A block holds at most
    128 KB; this encoder rejects longer inputs. *)
Definition zstd_store (data : Buffer) : option Buffer :=
  let n := N.of_nat (length data) in
  if (131072 <? n)%N then None
  else
    let header :=
      if (n <? 256)%N then x20 :: le_bytes 1 n else xa0 :: le_bytes 4 n in
    Some (zstdHeader ++ header ++ le_bytes 3 (1 + 8 * n)%N ++ data).

(** The blocks of a frame: a three-byte header (last-block bit, two bits
    of type, the size), then a raw block's bytes or a run-length block's
    single byte. Compressed blocks are beyond this decoder. *)
Fixpoint zstd_blocks (fuel : nat) (b : Buffer) : option Buffer :=
  match fuel, b with
  | S fuel, h0 :: h1 :: h2 :: rest =>
      let h := le_value [h0; h1; h2] in
      let size := N.to_nat (h / 8)%N in
      let block :=
        match ((h / 2) mod 4)%N with
        | 0%N =>
            if (length rest <? size)%nat then None
            else Some (take size rest, drop size rest)
        | 1%N =>
            match rest with
            | x :: rest => Some (repeat x size, rest)
            | [] => None
            end
        | _ => None
        end in
      match block with
      | Some (content, rest) =>
          if N.odd h then
            match rest with [] => Some content | _ => None end
          else
            match zstd_blocks fuel rest with
            | Some more => Some (content ++ more)
            | None => None
            end
      | None => None
      end
  | _, _ => None
  end.

Definition zstd_frame (b : Buffer) : option Buffer :=
  if Buffer_equals (take 4 b) zstdHeader then
    match drop 4 b with
    | descriptor :: rest =>
        let sized (k : nat) :=
          match zstd_blocks (length rest) (drop k rest) with
          | Some content =>
              if (N.of_nat (length content) =? le_value (take k rest))%N
              then Some content
              else None
          | None => None
          end in
        if Byte.eqb descriptor x20 then sized 1%nat
        else if Byte.eqb descriptor xa0 then sized 4%nat
        else None
    | [] => None
    end
  else None.

(** *** lz4 blocks *)

(** The bytes that continue a length whose nibble is 15. *)
Fixpoint lz4_length_bytes (fuel : nat) (n : N) : Buffer :=
  match fuel with
  | O => []
  | S fuel =>
      if (n <? 255)%N then [byte_of_N n]
      else xff :: lz4_length_bytes fuel (n - 255)%N
  end.

(** One sequence of literals and no match: a valid block for any input. *)
Definition lz4_literals (data : Buffer) : Buffer :=
  let n := N.of_nat (length data) in
  if (n <? 15)%N then byte_of_N (16 * n)%N :: data
  else xf0 :: lz4_length_bytes (S (length data)) (n - 15)%N ++ data.

Fixpoint lz4_read_length (fuel : nat) (acc : N) (src : Buffer)
  : option (N * Buffer) :=
  match fuel, src with
  | S fuel, b :: rest =>
      if Byte.eqb b xff then lz4_read_length fuel (acc + 255)%N rest
      else Some ((acc + Byte.to_N b)%N, rest)
  | _, _ => None
  end.

Definition lz4_nibble_length (nibble : N) (src : Buffer) : option (N * Buffer) :=
  if (nibble =? 15)%N then lz4_read_length (length src) 15%N src
  else Some (nibble, src).

(** A match is copied byte by byte, so that it may overlap its output. *)
Fixpoint lz4_copy_match (len offset : nat) (out : Buffer) : Buffer :=
  match len with
  | O => out
  | S len =>
      lz4_copy_match len offset (out ++ [nth (length out - offset) out x00])
  end.

Fixpoint lz4_sequences (fuel : nat) (src out : Buffer) (capacity : nat)
  : option Buffer :=
  match fuel, src with
  | O, _ => None
  | S _, [] => Some out
  | S fuel, token :: rest =>
      match lz4_nibble_length (Byte.to_N token / 16)%N rest with
      | Some (literals, rest) =>
          let literals := N.to_nat literals in
          let out := out ++ take literals rest in
          if (length rest <? literals)%nat || (capacity <? length out)%nat
          then None
          else
            match drop literals rest with
            | [] => Some out
            | o0 :: o1 :: rest =>
                let offset := N.to_nat (le_value [o0; o1]) in
                if (offset =? 0)%nat || (length out <? offset)%nat then None
                else
                  match lz4_nibble_length (Byte.to_N token mod 16)%N rest with
                  | Some (len, rest) =>
                      let out := lz4_copy_match (N.to_nat len + 4) offset out in
                      if (capacity <? length out)%nat then None
                      else lz4_sequences fuel rest out capacity
                  | None => None
                  end
            | _ => None
            end
      | None => None
      end
  end.

(** *** JSON *)

Definition quoted (s : string) : Buffer :=
  x22 :: list_byte_of_string s ++ [x22].

Fixpoint print (j : json) : Buffer :=
  match j with
  | JNull => list_byte_of_string "null"
  | JBool true => list_byte_of_string "true"
  | JBool false => list_byte_of_string "false"
  | JNumber n =>
      list_byte_of_string (DecimalString.NilZero.string_of_int (Z.to_int n))
  | JString s => quoted s
  | JArray items =>
      x5b :: (fix all (first : bool) (l : list json) : Buffer :=
                match l with
                | [] => [x5d]
                | i :: l' =>
                    (if first then [] else [x2c]) ++ print i ++ all false l'
                end) true items
  | JObject fields =>
      x7b :: (fix all (first : bool) (l : list (string * json)) : Buffer :=
                match l with
                | [] => [x7d]
                | (k, v) :: l' =>
                    (if first then [] else [x2c])
                      ++ quoted k ++ [x3a] ++ print v ++ all false l'
                end) true fields
  end.

(** The bytes before the first [stop], and those after it. *)
Fixpoint span_until (stop : byte) (b : Buffer) : option (Buffer * Buffer) :=
  match b with
  | [] => None
  | x :: rest =>
      if Byte.eqb x stop then Some ([], rest)
      else match span_until stop rest with
           | Some (pre, post) => Some (x :: pre, post)
           | None => None
           end
  end.

Fixpoint span_number (b : Buffer) : Buffer * Buffer :=
  match b with
  | x :: rest =>
      if Byte.eqb x x2d || ((48 <=? Byte.to_N x)%N && (Byte.to_N x <=? 57)%N)
      then let (digits, post) := span_number rest in (x :: digits, post)
      else ([], b)
  | [] => ([], [])
  end.

Definition parse_word (word : string) (v : json) (b : Buffer)
  : option (json * Buffer) :=
  let letters := list_byte_of_string word in
  if Buffer_equals (take (length letters) b) letters
  then Some (v, drop (length letters) b)
  else None.

Definition parse_number (b : Buffer) : option (json * Buffer) :=
  let (digits, rest) := span_number b in
  match DecimalString.NilZero.int_of_string (string_of_list_byte digits) with
  | Some i => Some (JNumber (Z.of_int i), rest)
  | None => None
  end.

Fixpoint parse_value (fuel : nat) (b : Buffer) : option (json * Buffer) :=
  match fuel, b with
  | S fuel, x :: rest =>
      if Byte.eqb x x22 then
        match span_until x22 rest with
        | Some (s, rest) => Some (JString (string_of_list_byte s), rest)
        | None => None
        end
      else if Byte.eqb x x5b then
        match rest with
        | x5d :: rest => Some (JArray [], rest)
        | _ =>
            match
              (fix all (k : nat) (b : Buffer) : option (list json * Buffer) :=
                 match k with
                 | O => None
                 | S k =>
                     match parse_value fuel b with
                     | Some (i, c :: rest) =>
                         if Byte.eqb c x5d then Some ([i], rest)
                         else if Byte.eqb c x2c then
                           match all k rest with
                           | Some (l, rest) => Some (i :: l, rest)
                           | None => None
                           end
                         else None
                     | _ => None
                     end
                 end) fuel rest
            with
            | Some (items, rest) => Some (JArray items, rest)
            | None => None
            end
        end
      else if Byte.eqb x x7b then
        match rest with
        | x7d :: rest => Some (JObject [], rest)
        | _ =>
            match
              (fix all (k : nat) (b : Buffer)
                 : option (list (string * json) * Buffer) :=
                 match k, b with
                 | S k, x22 :: b =>
                     match span_until x22 b with
                     | Some (key, x3a :: b) =>
                         match parse_value fuel b with
                         | Some (v, c :: rest) =>
                             let field := (string_of_list_byte key, v) in
                             if Byte.eqb c x7d then Some ([field], rest)
                             else if Byte.eqb c x2c then
                               match all k rest with
                               | Some (l, rest) => Some (field :: l, rest)
                               | None => None
                               end
                             else None
                         | _ => None
                         end
                     | _ => None
                     end
                 | _, _ => None
                 end) fuel rest
            with
            | Some (fields, rest) => Some (JObject fields, rest)
            | None => None
            end
        end
      else if Byte.eqb x x6e then parse_word "null" JNull b
      else if Byte.eqb x x74 then parse_word "true" (JBool true) b
      else if Byte.eqb x x66 then parse_word "false" (JBool false) b
      else parse_number b
  | _, _ => None
  end.

Definition parse (b : Buffer) : option json :=
  match parse_value (S (length b)) b with
  | Some (j, []) => Some j
  | _ => None
  end.

(** *** The platform *)

Definition platform (faults : syscall -> bool) : Platform := {|
  zstd_compress _ data := zstd_store data;
  zstd_decompress := zstd_frame;
  lz4_encodeBound n := if 2113929216 <? n then 0 else n + n / 255 + 16;
  lz4_encodeBlockHC src dst _ :=
    let block := lz4_literals src in
    if (length dst <? length block)%nat then Some (dst, 0)
    else Some (block ++ drop (length block) dst, byteLength block);
  lz4_decodeBlock src dst :=
    match lz4_sequences (S (length src)) src [] (length dst) with
    | Some out => Some (out ++ drop (length out) dst, byteLength out)
    | None => Some (dst, -1)
    end;
  zlib_gzip _ := None;
  zlib_gunzip _ := None;
  JSON_stringify := print;
  JSON_parse := parse;
  io_fault := faults;
  dir_stat_size := 4096
|}.

(** No call is refused. *)
Definition healthy : syscall -> bool := fun _ => false.

(** The environment refuses every [copyFile]. *)
Definition refuse_copy : syscall -> bool :=
  fun call => match call with SysCopyFile _ _ => true | _ => false end.

(** The world before anything is stored: an empty disk, and the caller's
    metadata object behind reference 1. *)
Definition fresh (metadata : AssetMetadata) : world :=
  {| fs := ∅; heap := {[ 1%positive := metadata ]} |}.

Definition png : AssetMetadata :=
  {| contentType := "image/png"; fileName := Null; originalSize := Undefined |}.

Definition zip : AssetMetadata :=
  {| contentType := "application/zip";
     fileName := Value "a.zip";
     originalSize := Undefined |}.

Definition mp4 : AssetMetadata :=
  {| contentType := "video/mp4";
     fileName := Value "clip.mp4";
     originalSize := Undefined |}.

(** An upload waiting outside the store, and its metadata behind
    reference 1. *)
Definition uploaded : world :=
  {| fs := <[["tmp"; "upload"] := File [x00; x01; x02]]> (<[["tmp"] := Dir]> ∅);
     heap := {[ 1%positive := mp4 ]} |}.

(** The [n] bytes [from], [from + 1], ... *)
Definition ramp (from n : nat) : Buffer := omap Byte.of_nat (seq from n).

Definition store (type : string) : config :=
  {| assetsDir := ["assets"]; compressionType := type; compressionLevel := 3 # 1 |}.

End Example.

(** ** Deleting *)

(** [q] is [p] or lies below it. *)
Fixpoint is_prefix (p q : path) : bool :=
  match p, q with
  | [], _ => true
  | x :: p', y :: q' => String.eqb x y && is_prefix p' q'
  | _ :: _, [] => false
  end.

(** The disk without [p] and everything below it. *)
Definition remove_tree (p : path) (d : gmap path node) : gmap path node :=
  filter (fun entry => is_prefix p (fst entry) = false) d.

Section Deleting.
Context {P : Platform} (serverConfig : config).

(** [fs.promises.rm(p, { recursive: true })], not forced: a path that
    names nothing is an error. *)
Definition fs_rm_recursive (p : path) : IO unit :=
  syscall_run (SysRm p) (fun w =>
    match node_at (fs w) p with
    | Some _ => (Ok tt, with_fs (remove_tree p) w)
    | None => (Throw (FsError ENOENT (SysRm p)), w)
    end).

Definition deleteAsset (userId assetId : string) : IO unit :=
  let assetDir := getAssetDir serverConfig userId assetId in
  fs_rm_recursive assetDir.

(** [assetId] is a string or [undefined]; the empty string is falsy. The
    value the [catch] handler returns is dropped. *)
Definition silentDeleteAsset (userId : string) (assetId : option string)
  : IO unit :=
  match assetId with
  | Some assetId =>
      if String.eqb assetId "" then ret tt
      else try_catch (deleteAsset userId assetId) (fun _ => ret tt)
  | None => ret tt
  end.


End Deleting.

(** ** Screenshots *)

(** What [storeScreenshot] returns when it has stored one. *)
Record StoredScreenshot : Type := {
  stored_assetId : string;
  stored_contentType : string;
  stored_fileName : string;
  stored_size : Z
}.

(** An object literal: a new object, behind a reference not yet in use. *)
Definition new_object (md : AssetMetadata) : IO loc :=
  fun w =>
    let l := fresh (dom (heap w)) in
    (Ok l, with_heap (insert l md) w).

Section Screenshots.
Context {P : Platform} (serverConfig : config).
(** [serverConfig.crawler.storeScreenshot], and the identifier that
    [crypto.randomUUID()] hands out at this call. *)
Variables (crawler_storeScreenshot : bool) (randomUUID : string).

Definition newAssetId : string := randomUUID.

(** The [logger.info] lines are left out; [jobId] serves them only. *)
Definition storeScreenshot (screenshot : option Buffer) (userId jobId : string)
  : IO (option StoredScreenshot) :=
  if negb crawler_storeScreenshot then ret None
  else
    match screenshot with
    | None => ret None
    | Some screenshot =>
        let assetId := newAssetId in
        let contentType := "image/png" in
        let fileName := "screenshot.png" in
        metadata <- new_object {| contentType := contentType;
                                  fileName := Value fileName;
                                  originalSize := Value (byteLength screenshot) |} ;;
        saveAsset serverConfig userId assetId screenshot metadata ;;
        ret (Some {| stored_assetId := assetId;
                     stored_contentType := contentType;
                     stored_fileName := fileName;
                     stored_size := byteLength screenshot |})
    end.

End Screenshots.

(** ** Listing *)

(** What [getAllAssets] yields for one asset: the spread metadata is kept
    as one field. *)
Record AssetSummary : Type := {
  summary_userId : string;
  summary_assetId : string;
  summary_metadata : AssetMetadata;
  summary_size : Z
}.

Section Listing.
Context {P : Platform} (serverConfig : config).

(** The body of the loop of [getAllAssets] for one file the glob
    delivers, up to its [yield]. The file is a path relative to the root;
    [file.split("/").slice(0, 2)] is its first two segments, and a file
    with fewer leaves [assetId] undefined, which [path.join] refuses. *)
Definition getAllAssets_visit (file : path) : IO AssetSummary :=
  match take 2 file with
  | [userId; assetId] =>
      r <- Promise_all (getAssetSize serverConfig userId assetId)
                       (readAssetMetadata serverConfig userId assetId) ;;
      let '(size, metadata) := r in
      ret {| summary_userId := userId;
             summary_assetId := assetId;
             summary_metadata := metadata;
             summary_size := size |}
  | _ => throw TypeError
  end.

(** One [next()] of the generator, on the files the glob has still to
    deliver: the end of the sequence, or a summary and the files left. *)
Definition getAllAssets_next (files : list path)
  : IO (option (AssetSummary * list path)) :=
  match files with
  | [] => ret None
  | file :: rest =>
      summary <- getAllAssets_visit file ;;
      ret (Some (summary, rest))
  end.

(** A consumer that reads the generator to its end: the summaries it
    received, and how the sequence ended. A generator that has thrown is
    finished. *)
Fixpoint getAllAssets_drain (files : list path) (w : world)
  : list AssetSummary * result unit :=
  match files with
  | [] => ([], Ok tt)
  | file :: rest =>
      match getAllAssets_visit file w with
      | (Ok summary, w') =>
          let (more, r) := getAllAssets_drain rest w' in (summary :: more, r)
      | (Throw e, _) => ([], Throw e)
      end
  end.

End Listing.

(** ** More worlds to run the model on *)

Module Scenario.

(** The example platform with a zstd library that rejects every input. *)
Definition zstd_down : Platform :=
  let base := Example.platform Example.healthy in
  {| zstd_compress _ _ := None;
     zstd_decompress := @zstd_decompress base;
     lz4_encodeBound := @lz4_encodeBound base;
     lz4_encodeBlockHC := @lz4_encodeBlockHC base;
     lz4_decodeBlock := @lz4_decodeBlock base;
     zlib_gzip := @zlib_gzip base;
     zlib_gunzip := @zlib_gunzip base;
     JSON_stringify := @JSON_stringify base;
     JSON_parse := @JSON_parse base;
     io_fault := @io_fault base;
     dir_stat_size := @dir_stat_size base |}.

(** Two assets of user "u" and one of user "v", stored under different
    codecs, on the example platform. *)
Definition library : world :=
  let P := Example.platform Example.healthy in
  let w1 := snd (saveAsset (Example.store "zstd") "u" "a" [x01; x02; x03]
                   1%positive (Example.fresh Example.png)) in
  let w2 := snd (saveAsset (Example.store "none") "u" "b" [x04; x05]
                   1%positive w1) in
  snd (saveAsset (Example.store "lz4") "v" "c" [x06] 1%positive w2).

End Scenario.

(** * Properties *)

(** ** Buffers *)

Lemma Buffer_equals_eq (a b : Buffer) : Buffer_equals a b = true <-> a = b.
Proof.
  revert b; induction a as [|x a IH]; intros [|y b]; simpl; try easy.
  rewrite andb_true_iff, IH. split.
  - intros [Hxy ->]. now rewrite (Byte.byte_dec_bl _ _ Hxy).
  - intros [= -> ->]. split; [now apply Byte.byte_dec_lb | reflexivity].
Qed.

Lemma Buffer_equals_neq (a b : Buffer) : Buffer_equals a b = false <-> a <> b.
Proof.
  rewrite <- Buffer_equals_eq. destruct (Buffer_equals a b); easy.
Qed.

Lemma subarray_prefix (b : Buffer) (n : Z) :
  0 <= n -> subarray b 0 n = take (Z.to_nat n) b.
Proof.
  intros Hn. unfold subarray, relative_index, byteLength.
  destruct (Z.ltb_spec n 0) as [?|_]; [lia|]. simpl.
  rewrite (Z.min_l 0) by lia. rewrite Z.sub_0_r. change (Z.to_nat 0) with 0%nat.
  rewrite drop_0.
  destruct (Z.le_ge_cases n (Z.of_nat (length b))) as [Hle|Hge].
  - now rewrite Z.min_l by lia.
  - rewrite Z.min_r by lia. rewrite Nat2Z.id.
    rewrite !take_ge by lia. reflexivity.
Qed.


(** ** The allow-lists *)

(** C3, as the claim states it, fails: the direct-upload allow-list does
    contain text/html, so the conjunction "upload holds neither video/mp4
    nor text/html, bookmark holds neither, both are strict subsets of the
    general set" is false. *)
Lemma upload_allow_list_contains_text_html :
  ~ ((ASSET_TYPES.VIDEO_MP4 ∉ SUPPORTED_UPLOAD_ASSET_TYPES)
     /\ (ASSET_TYPES.TEXT_HTML ∉ SUPPORTED_UPLOAD_ASSET_TYPES)
     /\ (ASSET_TYPES.TEXT_HTML ∉ SUPPORTED_BOOKMARK_ASSET_TYPES)
     /\ (ASSET_TYPES.VIDEO_MP4 ∉ SUPPORTED_BOOKMARK_ASSET_TYPES)
     /\ (SUPPORTED_UPLOAD_ASSET_TYPES ⊂ SUPPORTED_ASSET_TYPES)
     /\ (SUPPORTED_BOOKMARK_ASSET_TYPES ⊂ SUPPORTED_ASSET_TYPES)).
Proof.
  intros (_ & Hhtml & _). apply Hhtml.
  unfold SUPPORTED_UPLOAD_ASSET_TYPES. set_solver.
Qed.

(** C3, amended: the direct-upload allow-list holds text/html and does not
    hold video/mp4; the bookmark allow-list holds neither text/html nor
    video/mp4; the general storage set is exactly the six content types,
    and both narrower lists are strict subsets of it. *)
Theorem allow_lists :
  (ASSET_TYPES.VIDEO_MP4 ∉ SUPPORTED_UPLOAD_ASSET_TYPES)
  /\ (ASSET_TYPES.TEXT_HTML ∈ SUPPORTED_UPLOAD_ASSET_TYPES)
  /\ (ASSET_TYPES.TEXT_HTML ∉ SUPPORTED_BOOKMARK_ASSET_TYPES)
  /\ (ASSET_TYPES.VIDEO_MP4 ∉ SUPPORTED_BOOKMARK_ASSET_TYPES)
  /\ SUPPORTED_ASSET_TYPES
     = list_to_set ["image/jpeg"; "image/png"; "image/webp"; "text/html";
                    "application/pdf"; "video/mp4"]
  /\ (SUPPORTED_UPLOAD_ASSET_TYPES ⊂ SUPPORTED_ASSET_TYPES)
  /\ (SUPPORTED_BOOKMARK_ASSET_TYPES ⊂ SUPPORTED_ASSET_TYPES).
Proof.
  unfold SUPPORTED_ASSET_TYPES, SUPPORTED_UPLOAD_ASSET_TYPES,
    SUPPORTED_BOOKMARK_ASSET_TYPES, IMAGE_ASSET_TYPES,
    ASSET_TYPES.VIDEO_MP4, ASSET_TYPES.TEXT_HTML, ASSET_TYPES.APPLICATION_PDF,
    ASSET_TYPES.IMAGE_JPEG, ASSET_TYPES.IMAGE_PNG, ASSET_TYPES.IMAGE_WEBP.
  repeat split; try set_solver.
Qed.

(** ** The codec registry *)

(** C4 (the code departs from it): with the codec name "gzip", [compress]
    returns the input bytes themselves and the empty suffix, for every
    input and whatever zlib would have produced: no gzip output, no ".gz". *)
Theorem compress_gzip_is_passthrough `{P : Platform} (cfg : config)
  (data : Buffer) :
  compress cfg data "gzip" = Ok (data, "")
  /\ forall output, compress cfg data "gzip" <> Ok (output, ".gz").
Proof. split; [reflexivity | discriminate]. Qed.

(** C5: [getDataType] answers none for every buffer shorter than 4 bytes;
    for a buffer of at least 4 bytes it answers zstd exactly when the first
    four bytes are 28 B5 2F FD, gzip exactly when that fails and the first
    two bytes are 1F 8B, lz4 exactly when both fail and the first four
    bytes are 04 22 4D 18, and none exactly when no signature matches. *)
Theorem getDataType_signatures (data : Buffer) :
  (byteLength data < 4 -> getDataType data = none)
  /\ (getDataType data = zstd <->
        4 <= byteLength data /\ take 4 data = [x28; xb5; x2f; xfd])
  /\ (getDataType data = gzip <->
        4 <= byteLength data /\ take 4 data <> [x28; xb5; x2f; xfd]
        /\ take 2 data = [x1f; x8b])
  /\ (getDataType data = lz4 <->
        4 <= byteLength data /\ take 4 data <> [x28; xb5; x2f; xfd]
        /\ take 2 data <> [x1f; x8b]
        /\ take 4 data = [x04; x22; x4d; x18])
  /\ (getDataType data = none <->
        byteLength data < 4
        \/ (take 4 data <> [x28; xb5; x2f; xfd]
            /\ take 2 data <> [x1f; x8b]
            /\ take 4 data <> [x04; x22; x4d; x18])).
Proof.
  unfold getDataType.
  destruct (Z.ltb_spec (byteLength data) 4) as [Hlt|Hge].
  { repeat split; try easy; try (intros [? _]; lia); auto. }
  rewrite !subarray_prefix by lia.
  change (Z.to_nat 4) with 4%nat. change (Z.to_nat 2) with 2%nat.
  fold zstdHeader gzipHeader lz4Header.
  destruct (Buffer_equals (take 4 data) zstdHeader) eqn:Hz;
    [apply Buffer_equals_eq in Hz | apply Buffer_equals_neq in Hz].
  { repeat split; try easy; try tauto; try (intros; lia).
    intros [?|?]; [lia | tauto]. }
  destruct (Buffer_equals (take 2 data) gzipHeader) eqn:Hg;
    [apply Buffer_equals_eq in Hg | apply Buffer_equals_neq in Hg].
  { repeat split; try easy; try tauto; try (intros; lia).
    intros [?|?]; [lia | tauto]. }
  destruct (Buffer_equals (take 4 data) lz4Header) eqn:Hl;
    [apply Buffer_equals_eq in Hl | apply Buffer_equals_neq in Hl].
  { repeat split; try easy; try tauto; try (intros; lia).
    intros [?|?]; [lia | tauto]. }
  repeat split; try easy; try tauto; try (intros; lia).
Qed.

(** ** Promises *)

Section Promises.
Context {A B : Type}.

Lemma bind_inv (m : IO A) (k : A -> IO B) w r w' :
  bind m k w = (r, w') ->
  (exists a w1, m w = (Ok a, w1) /\ k a w1 = (r, w'))
  \/ (exists e, m w = (Throw e, w') /\ r = Throw e).
Proof.
  unfold bind. destruct (m w) as [[a|e] w1]; intros H.
  - left. now exists a, w1.
  - right. exists e. now inversion H.
Qed.

Lemma bind_Ok_inv (m : IO A) (k : A -> IO B) w b w' :
  bind m k w = (Ok b, w') ->
  exists a w1, m w = (Ok a, w1) /\ k a w1 = (Ok b, w').
Proof.
  intros H. apply bind_inv in H as [H|(e & _ & He)]; [exact H | discriminate].
Qed.

Lemma bind_Ok (m : IO A) (k : A -> IO B) w a w1 :
  m w = (Ok a, w1) -> bind m k w = k a w1.
Proof. unfold bind. now intros ->. Qed.

Lemma bind_Throw (m : IO A) (k : A -> IO B) w e w1 :
  m w = (Throw e, w1) -> bind m k w = (Throw e, w1).
Proof. unfold bind. now intros ->. Qed.

Lemma Promise_all_inv (a : IO A) (b : IO B) w r w' :
  Promise_all a b w = (r, w') ->
  exists ra w1 rb,
    a w = (ra, w1) /\ b w1 = (rb, w')
    /\ r = match ra, rb with
           | Ok x, Ok y => Ok (x, y)
           | Throw e, _ => Throw e
           | Ok _, Throw e => Throw e
           end.
Proof.
  unfold Promise_all. destruct (a w) as [ra w1] eqn:Ha.
  destruct (b w1) as [rb w2] eqn:Hb.
  intros [= <- <-]. now exists ra, w1, rb.
Qed.

Lemma Promise_all_Ok_inv (a : IO A) (b : IO B) w x y w' :
  Promise_all a b w = (Ok (x, y), w') ->
  exists w1, a w = (Ok x, w1) /\ b w1 = (Ok y, w').
Proof.
  intros H. apply Promise_all_inv in H as (ra & w1 & rb & Ha & Hb & Hr).
  exists w1. destruct ra, rb; try discriminate Hr. inversion Hr; subst. now split.
Qed.

End Promises.

(** ** The file system *)

Lemma node_at_snoc (d : gmap path node) (p : path) (s : string) :
  node_at d (p ++ [s]) = d !! (p ++ [s]).
Proof. now destruct p. Qed.

Lemma snoc_not_nil (p : path) (s : string) : p ++ [s] <> [].
Proof. now destruct p. Qed.

Lemma elem_of_prefixes (p q : path) :
  q ∈ prefixes p <-> exists n, (1 <= n <= length p)%nat /\ q = take n p.
Proof.
  unfold prefixes. rewrite list_elem_of_fmap. split.
  - intros (n & -> & Hn). exists n. split; [|reflexivity].
    apply elem_of_seq in Hn. lia.
  - intros (n & Hn & ->). exists n. split; [reflexivity|].
    apply elem_of_seq. lia.
Qed.

Lemma prefixes_self (p : path) : p <> [] -> p ∈ prefixes p.
Proof.
  intros Hp. apply elem_of_prefixes. exists (length p). split.
  - destruct p; [easy | simpl; lia].
  - now rewrite firstn_all.
Qed.

Lemma prefixes_shorter (p q : path) :
  q ∈ prefixes p -> (length q <= length p)%nat.
Proof.
  intros (n & Hn & ->)%elem_of_prefixes. rewrite length_take. lia.
Qed.

Lemma make_dirs_cons (p : path) (ps : list path) (d : gmap path node) :
  make_dirs (p :: ps) d
  = match make_dirs ps d !! p with
    | None => <[p := Dir]> (make_dirs ps d)
    | Some _ => make_dirs ps d
    end.
Proof. reflexivity. Qed.

Lemma make_dirs_lookup (ps : list path) (d : gmap path node) (q : path) :
  make_dirs ps d !! q
  = match d !! q with
    | Some n => Some n
    | None => if bool_decide (q ∈ ps) then Some Dir else None
    end.
Proof.
  induction ps as [|p ps IH].
  - cbn [make_dirs foldr]. destruct (d !! q); [reflexivity|].
    case_bool_decide; [set_solver | reflexivity].
  - rewrite make_dirs_cons. destruct (make_dirs ps d !! p) eqn:Hp.
    + rewrite IH. destruct (d !! q) eqn:Hq; [reflexivity|].
      destruct (decide (q = p)) as [->|Hne].
      * rewrite IH in Hp.
        repeat case_bool_decide; set_solver.
      * repeat case_bool_decide; set_solver.
    + destruct (decide (q = p)) as [->|Hne].
      * rewrite lookup_insert_eq. rewrite IH in Hp.
        destruct (d !! p); [discriminate|].
        now rewrite (bool_decide_eq_true_2 (p ∈ p :: ps)) by set_solver.
      * rewrite lookup_insert_ne by congruence. rewrite IH.
        destruct (d !! q); [reflexivity|].
        repeat case_bool_decide; set_solver.
Qed.

(** [mkdir -p] keeps every node that is there. *)
Lemma make_dirs_keeps (ps : list path) (d : gmap path node) q n :
  d !! q = Some n -> make_dirs ps d !! q = Some n.
Proof. intros H. now rewrite make_dirs_lookup, H. Qed.

(** [mkdir -p] makes directories only, and only on the way. *)
Lemma make_dirs_new (ps : list path) (d : gmap path node) q :
  d !! q = None -> q ∉ ps -> make_dirs ps d !! q = None.
Proof.
  intros H Hq. rewrite make_dirs_lookup, H. now rewrite bool_decide_eq_false_2.
Qed.

Lemma make_dirs_file (ps : list path) (d : gmap path node) q data :
  make_dirs ps d !! q = Some (File data) <-> d !! q = Some (File data).
Proof.
  rewrite make_dirs_lookup. destruct (d !! q); [reflexivity|].
  destruct (bool_decide (q ∈ ps)); split; discriminate.
Qed.

Section FileSystemFacts.
Context {P : Platform}.

Lemma syscall_run_inv {A} (call : syscall) (body : IO A) w r w' :
  syscall_run call body w = (r, w') ->
  (io_fault call = true /\ r = Throw (FsError EIO call) /\ w' = w)
  \/ (io_fault call = false /\ body w = (r, w')).
Proof.
  unfold syscall_run. destruct (io_fault call); intros H.
  - left. now inversion H.
  - now right.
Qed.

Lemma put_file_inv call p data w r w' :
  put_file call p data w = (r, w') ->
  (r = Ok tt /\ p <> [] /\ w' = with_fs (insert p (File data)) w)
  \/ ((exists e, r = Throw e) /\ w' = w).
Proof.
  unfold put_file. destruct p as [|s p]; [intros [= <- <-]; right; eauto|].
  destruct (fs w !! (s :: p)) as [[|?]|];
    try destruct (is_directory _ _); intros [= <- <-]; eauto.
Qed.

Lemma fs_writeFile_inv p data w r w' :
  fs_writeFile p data w = (r, w') ->
  (r = Ok tt /\ p <> [] /\ w' = with_fs (insert p (File data)) w)
  \/ ((exists e, r = Throw e) /\ w' = w).
Proof.
  intros [(_ & -> & ->)|[_ H]]%syscall_run_inv; [right; eauto|].
  now apply put_file_inv in H.
Qed.

Lemma fs_copyFile_inv src dst w r w' :
  fs_copyFile src dst w = (r, w') ->
  (r = Ok tt /\ dst <> []
   /\ exists data, node_at (fs w) src = Some (File data)
                   /\ w' = with_fs (insert dst (File data)) w)
  \/ ((exists e, r = Throw e) /\ w' = w).
Proof.
  intros [(_ & -> & ->)|[_ H]]%syscall_run_inv; [right; eauto|].
  destruct (node_at (fs w) src) as [[|data]|] eqn:Hsrc;
    try (inversion H; subst; right; eauto; fail).
  apply put_file_inv in H as [(-> & Hd & ->)|H]; [left|now right].
  repeat split; eauto.
Qed.

Lemma fs_rm_inv p w r w' :
  fs_rm p w = (r, w') ->
  (r = Ok tt /\ w' = with_fs (delete p) w)
  \/ ((exists e, r = Throw e) /\ w' = w).
Proof.
  intros [(_ & -> & ->)|[_ H]]%syscall_run_inv; [right; eauto|].
  destruct (node_at (fs w) p) as [[|data]|]; inversion H; subst; eauto.
Qed.

Lemma fs_mkdir_recursive_inv p w r w' :
  fs_mkdir_recursive p w = (r, w') ->
  (r = Ok tt /\ p <> [] /\ w' = with_fs (make_dirs (prefixes p)) w)
  \/ ((exists e, r = Throw e) /\ w' = w).
Proof.
  intros [(_ & -> & ->)|[_ H]]%syscall_run_inv; [right; eauto|].
  destruct p as [|s p]; [inversion H; subst; right; eauto|].
  destruct (existsb _ _); inversion H; subst; eauto.
Qed.

Lemma fs_readFile_Ok p data w :
  io_fault (SysReadFile p) = false ->
  node_at (fs w) p = Some (File data) ->
  fs_readFile p w = (Ok data, w).
Proof. unfold fs_readFile, syscall_run. now intros -> ->. Qed.

Lemma fs_readFile_Ok_inv p data w w' :
  fs_readFile p w = (Ok data, w') ->
  w' = w /\ node_at (fs w) p = Some (File data).
Proof.
  intros [(_ & ? & _)|[_ H]]%syscall_run_inv; [discriminate|].
  destruct (node_at (fs w) p) as [[|d]|]; inversion H; subst; auto.
Qed.

Lemma fs_stat_file p data w :
  io_fault (SysStat p) = false ->
  node_at (fs w) p = Some (File data) ->
  fs_stat p w = (Ok {| stat_size := byteLength data |}, w).
Proof. unfold fs_stat, syscall_run. now intros -> ->. Qed.

End FileSystemFacts.

(** ** The metadata sidecar *)

Lemma zAssetMetadataSchema_parse_to_json (m : AssetMetadata) :
  zAssetMetadataSchema_parse (metadata_to_json m) = Some m.
Proof. destruct m as [ct [| |fn] [| |sz]]; reflexivity. Qed.

Lemma originalSize_to_json (m : AssetMetadata) (n : Z) :
  exists fields,
    metadata_to_json (set_originalSize n m) = JObject fields
    /\ property "originalSize" fields = Some (JNumber n).
Proof. destruct m as [ct [| |fn] sz]; eexists; split; reflexivity. Qed.

Section StoreFacts.
Context {P : Platform} (cfg : config).

Lemma parse_metadata_pure (b : Buffer) w :
  exists r, parse_metadata b w = (r, w).
Proof.
  unfold parse_metadata, bind, or_throw.
  destruct (JSON_parse b) as [j|]; [|now eexists]. cbn.
  destruct (zAssetMetadataSchema_parse j); now eexists.
Qed.

(** A sidecar that [JSON.parse] reads back as it was written yields the
    metadata it was written from. *)
Lemma parse_metadata_stringify (m : AssetMetadata) w :
  JSON_parse (JSON_stringify (metadata_to_json m)) = Some (metadata_to_json m) ->
  parse_metadata (JSON_stringify (metadata_to_json m)) w = (Ok m, w).
Proof.
  intros H. unfold parse_metadata.
  rewrite (bind_Ok _ _ w (metadata_to_json m) w)
    by (unfold or_throw; now rewrite H).
  unfold or_throw. now rewrite zAssetMetadataSchema_parse_to_json.
Qed.

(** ** The path resolver *)

Lemma fs_access_accessible p w :
  fs_access p w
  = (if accessible (fs w) p then Ok tt
     else Throw (FsError (if io_fault (SysAccess p) then EIO else ENOENT)
                         (SysAccess p)), w).
Proof.
  unfold fs_access, syscall_run, accessible.
  destruct (io_fault (SysAccess p)); [reflexivity|].
  now destruct (node_at (fs w) p).
Qed.

(** [getAssetPath] never rejects and never writes: it answers the first
    candidate that [access] accepts. *)
Lemma getAssetPath_from_run (assetDir : path) (exts : list string) w :
  getAssetPath_from assetDir exts w
  = (Ok (first_accessible (fs w) assetDir exts), w).
Proof.
  induction exts as [|ext rest IH]; [reflexivity|].
  cbn [getAssetPath_from first_accessible]. unfold try_catch, bind.
  rewrite fs_access_accessible.
  destruct (accessible (fs w) (assetDir ++ ["asset.bin" +:+ ext]));
    [reflexivity | exact IH].
Qed.

Lemma getAssetPath_run (assetDir : path) w :
  getAssetPath assetDir w
  = (Ok (first_accessible (fs w) assetDir [""; ".zst"; ".lz4"; ".gz"]), w).
Proof. apply getAssetPath_from_run. Qed.

Lemma first_accessible_here d assetDir ext rest :
  accessible d (assetDir ++ ["asset.bin" +:+ ext]) = true ->
  first_accessible d assetDir (ext :: rest) = assetDir ++ ["asset.bin" +:+ ext].
Proof. cbn [first_accessible]. now intros ->. Qed.

Lemma first_accessible_next d assetDir ext rest :
  accessible d (assetDir ++ ["asset.bin" +:+ ext]) = false ->
  first_accessible d assetDir (ext :: rest) = first_accessible d assetDir rest.
Proof. cbn [first_accessible]. now intros ->. Qed.

Lemma accessible_file d p data :
  io_fault (SysAccess p) = false -> node_at d p = Some (File data) ->
  accessible d p = true.
Proof. unfold accessible. now intros -> ->. Qed.

Lemma accessible_absent d p : node_at d p = None -> accessible d p = false.
Proof. unfold accessible. intros ->. apply andb_false_r. Qed.

(** ** Reading *)

(** How [readAsset] runs once the payload is located and both files can
    be read. *)
Lemma readAsset_run (userId assetId : string) w data metadataStr md :
  let assetDir := getAssetDir cfg userId assetId in
  let p := first_accessible (fs w) assetDir [""; ".zst"; ".lz4"; ".gz"] in
  p <> [] ->
  fs_readFile p w = (Ok data, w) ->
  fs_readFile (assetDir ++ ["metadata.json"]) w = (Ok metadataStr, w) ->
  parse_metadata metadataStr w = (Ok md, w) ->
  readAsset cfg userId assetId w
  = (Ok (decompress data (getDataType data), md), w).
Proof.
  intros assetDir p Hp Hdata Hmeta Hparse. unfold readAsset.
  rewrite (bind_Ok _ _ _ _ _ (getAssetPath_run _ w)).
  fold assetDir. fold p. destruct p as [|s p']; [easy|].
  rewrite (bind_Ok _ _ _ _ _ Hdata).
  unfold Promise_all at 1, ret at 1, bind at 1. rewrite Hmeta.
  unfold bind. now rewrite Hparse.
Qed.

(** What a successful [readAsset] has done: the world is untouched, and
    the bytes returned are those of the located file, decoded by the codec
    their own prefix names. *)
Lemma readAsset_Ok_inv (userId assetId : string) w asset md w' :
  readAsset cfg userId assetId w = (Ok (asset, md), w') ->
  let assetDir := getAssetDir cfg userId assetId in
  let p := first_accessible (fs w) assetDir [""; ".zst"; ".lz4"; ".gz"] in
  w' = w /\ p <> []
  /\ exists data, fs_readFile p w = (Ok data, w)
                  /\ asset = decompress data (getDataType data).
Proof.
  intros H assetDir p. unfold readAsset in H.
  rewrite (bind_Ok _ _ _ _ _ (getAssetPath_run _ w)) in H.
  fold assetDir in H. fold p in H. destruct p as [|s p']; [discriminate|].
  apply bind_Ok_inv in H as (data & w1 & Hdata & H).
  destruct (fs_readFile_Ok_inv _ _ _ _ Hdata) as [-> _].
  apply bind_Ok_inv in H as ([asset' metadataStr] & w2 & Hall & H).
  apply Promise_all_Ok_inv in Hall as (w3 & Hret & Hmeta).
  inversion Hret; subst w3 asset'.
  destruct (fs_readFile_Ok_inv _ _ _ _ Hmeta) as [-> _].
  apply bind_Ok_inv in H as (md' & w4 & Hparse & H).
  destruct (parse_metadata_pure metadataStr w) as [r Hr].
  rewrite Hr in Hparse. inversion Hparse; subst w4 r.
  inversion H; subst. repeat split; [easy|]. now exists data.
Qed.

(** ** Saving *)

Lemma compress_passthrough (data : Buffer) (type : string) :
  type <> "zstd" -> type <> "lz4" -> compress cfg data type = Ok (data, "").
Proof.
  intros Hz Hl. unfold compress.
  rewrite (proj2 (String.eqb_neq _ _) Hz), (proj2 (String.eqb_neq _ _) Hl).
  now destruct (String.eqb type "gzip").
Qed.

Lemma compress_zstd (data : Buffer) :
  compress cfg data "zstd"
  = match zstd_compress (clamp_level cfg 1 19) data with
    | Some c => Ok (c, ".zst")
    | None => Throw CodecError
    end.
Proof. reflexivity. Qed.

(** The world a successful [saveAsset] leaves: the directories on the way
    made, the caller's object updated, the payload under the suffix of the
    codec and the sidecar with the updated metadata written. *)
Lemma saveAsset_Ok_inv (userId assetId : string) (asset : Buffer) (m : loc)
  (md : AssetMetadata) w w' :
  heap w !! m = Some md ->
  saveAsset cfg userId assetId asset m w = (Ok tt, w') ->
  let assetDir := getAssetDir cfg userId assetId in
  let md' := set_originalSize (byteLength asset) md in
  exists compressed extension,
    compress cfg asset (COMPRESSION_TYPE cfg) = Ok (compressed, extension)
    /\ fs w'
       = <[assetDir ++ ["metadata.json"]
             := File (JSON_stringify (metadata_to_json md'))]>
           (<[assetDir ++ ["asset.bin" +:+ extension] := File compressed]>
              (make_dirs (prefixes assetDir) (fs w)))
    /\ heap w' = <[m := md']> (heap w).
Proof.
  intros Hm H assetDir md'. unfold saveAsset in H. fold assetDir in H.
  apply bind_Ok_inv in H as (md0 & w0 & Hderef & H).
  unfold deref in Hderef. rewrite Hm in Hderef. inversion Hderef; subst w0 md0.
  destruct (negb (Set_has SUPPORTED_ASSET_TYPES (contentType md)));
    [discriminate|].
  apply bind_Ok_inv in H as ([] & w1 & Hmk & H).
  apply fs_mkdir_recursive_inv in Hmk as [(_ & _ & ->)|[[e He] _]];
    [|discriminate].
  apply bind_Ok_inv in H as ([] & w2 & Hassign & H).
  inversion Hassign; subst w2.
  apply bind_Ok_inv in H as ([compressed extension] & w3 & Hc & H).
  inversion Hc as [[Hc' Hw3]]; subst w3.
  apply bind_Ok_inv in H as (md1 & w4 & Hd & H).
  unfold deref in Hd. cbn [heap with_heap with_fs] in Hd.
  rewrite lookup_alter_eq, Hm in Hd. inversion Hd; subst w4 md1.
  apply bind_Ok_inv in H as ([[] []] & w5 & Hall & H).
  apply Promise_all_Ok_inv in Hall as (w6 & Hpay & Hside).
  apply fs_writeFile_inv in Hpay as [(_ & _ & ->)|[[e He] _]]; [|discriminate].
  apply fs_writeFile_inv in Hside as [(_ & _ & ->)|[[e He] _]]; [|discriminate].
  inversion H; subst w'. exists compressed, extension.
  repeat split; [exact Hc'|]. cbn [heap with_heap with_fs].
  apply map_eq. intros i. rewrite lookup_alter, lookup_insert.
  destruct (decide (m = i)) as [<-|]; [now rewrite Hm | reflexivity].
Qed.

End StoreFacts.

(** ** Validation of the content type *)

(** C6: when the content type of the metadata is not in the general
    allow-list, [saveAsset] rejects with the unsupported-type error and
    leaves the world as it found it: the disk is not touched (so no asset
    directory appears for the pair), and neither is the caller's object. *)
Theorem saveAsset_unsupported_type `{P : Platform} (cfg : config)
  (userId assetId : string) (asset : Buffer) (m : loc) (md : AssetMetadata)
  (w : world) :
  heap w !! m = Some md ->
  contentType md ∉ SUPPORTED_ASSET_TYPES ->
  saveAsset cfg userId assetId asset m w = (Throw UnsupportedAssetType, w)
  /\ fs (snd (saveAsset cfg userId assetId asset m w))
       !! getAssetDir cfg userId assetId
     = fs w !! getAssetDir cfg userId assetId.
Proof.
  intros Hm Hct.
  assert (saveAsset cfg userId assetId asset m w
          = (Throw UnsupportedAssetType, w)) as ->; [|now split].
  unfold saveAsset.
  rewrite (bind_Ok _ _ w md w) by (unfold deref; now rewrite Hm).
  unfold Set_has. now rewrite bool_decide_eq_false_2.
Qed.

Lemma saveAsset_unsupported_type_witness :
  saveAsset (P := Example.platform Example.healthy) (Example.store "zstd")
    "u" "a" [x50; x4b] 1%positive (Example.fresh Example.zip)
  = (Throw UnsupportedAssetType, Example.fresh Example.zip)
  /\ fs (snd (saveAsset (P := Example.platform Example.healthy)
                (Example.store "zstd") "u" "a" [x50; x4b] 1%positive
                (Example.fresh Example.zip)))
       !! ["assets"; "u"; "a"]
     = None.
Proof.
  apply (saveAsset_unsupported_type (P := Example.platform Example.healthy)
           (Example.store "zstd") "u" "a" [x50; x4b] 1%positive Example.zip
           (Example.fresh Example.zip)).
  - reflexivity.
  - intros Hin. apply (bool_decide_pack _) in Hin. vm_compute in Hin.
    exact Hin.
Defined.

(** ** The recorded size *)

Section RecordedSize.
Context {P : Platform} (cfg : config).

Lemma saveAsset_after_mkdir (userId assetId : string) (asset : Buffer)
  (m : loc) (md : AssetMetadata) w w1 r w' :
  heap w !! m = Some md ->
  contentType md ∈ SUPPORTED_ASSET_TYPES ->
  fs_mkdir_recursive (getAssetDir cfg userId assetId) w = (Ok tt, w1) ->
  saveAsset cfg userId assetId asset m w = (r, w') ->
  heap w' = <[m := set_originalSize (byteLength asset) md]> (heap w).
Proof.
  intros Hm Hct Hmk H.
  assert (forall f, heap (with_fs f w) !! m = Some md) as Hm1 by easy.
  assert (alter (set_originalSize (byteLength asset)) m (heap w)
          = <[m := set_originalSize (byteLength asset) md]> (heap w)) as Halter.
  { apply map_eq. intros i. rewrite lookup_alter, lookup_insert.
    destruct (decide (m = i)) as [<-|]; [now rewrite Hm | reflexivity]. }
  unfold saveAsset in H.
  rewrite (bind_Ok _ _ w md w) in H by (unfold deref; now rewrite Hm).
  unfold Set_has in H. rewrite bool_decide_eq_true_2 in H by exact Hct.
  cbn [negb] in H. rewrite (bind_Ok _ _ _ _ _ Hmk) in H.
  apply fs_mkdir_recursive_inv in Hmk as [(_ & _ & ->)|[[e He] _]];
    [|discriminate].
  rewrite (bind_Ok (assign_originalSize m (byteLength asset)) _ _ tt _ eq_refl)
    in H.
  destruct (compress cfg asset (COMPRESSION_TYPE cfg)) as [[c ext]|e] eqn:Hc.
  - rewrite (bind_Ok _ _ _ (c, ext) _) in H by reflexivity.
    rewrite (bind_Ok _ _ _ (set_originalSize (byteLength asset) md) _) in H
      by (unfold deref; cbn [heap with_heap with_fs];
          now rewrite lookup_alter_eq, Hm).
    apply bind_inv in H as [(x & w2 & Hall & H)|(e & Hall & _)];
      [inversion H; subst w2|];
      apply Promise_all_inv in Hall as (ra & w3 & rb & Ha & Hb & _);
      apply fs_writeFile_inv in Ha as [(_ & _ & ->)|[_ ->]];
      apply fs_writeFile_inv in Hb as [(_ & _ & ->)|[_ ->]];
      exact Halter.
  - rewrite (bind_Throw _ _ _ e _) in H by reflexivity.
    inversion H; subst. exact Halter.
Qed.

(** C10: a [saveAsset] with a supported content type that returns has
    written a sidecar whose [originalSize] is the byte length of the input
    buffer, whatever size the caller had put in the metadata, and has set
    [originalSize] of the caller's own metadata object to that length. The
    object is updated before the files are written: once the directory is
    made it holds the length however the call settles. *)
Theorem saveAsset_records_byteLength (userId assetId : string)
  (asset : Buffer) (m : loc) (md : AssetMetadata) (w : world) :
  heap w !! m = Some md ->
  contentType md ∈ SUPPORTED_ASSET_TYPES ->
  let assetDir := getAssetDir cfg userId assetId in
  let md' := set_originalSize (byteLength asset) md in
  (forall w',
     saveAsset cfg userId assetId asset m w = (Ok tt, w') ->
     fs w' !! (assetDir ++ ["metadata.json"])
       = Some (File (JSON_stringify (metadata_to_json md')))
     /\ (exists fields,
           metadata_to_json md' = JObject fields
           /\ property "originalSize" fields = Some (JNumber (byteLength asset)))
     /\ heap w' !! m = Some md'
     /\ originalSize md' = Value (byteLength asset))
  /\ (forall w1 r w',
        fs_mkdir_recursive assetDir w = (Ok tt, w1) ->
        saveAsset cfg userId assetId asset m w = (r, w') ->
        heap w' !! m = Some md').
Proof.
  intros Hm Hct assetDir md'. split.
  - intros w' H.
    destruct (saveAsset_Ok_inv cfg _ _ _ _ _ _ _ Hm H)
      as (c & ext & _ & Hfs & Hheap).
    fold assetDir md' in Hfs, Hheap. rewrite Hfs, Hheap.
    rewrite !lookup_insert_eq. repeat split.
    apply originalSize_to_json.
  - intros w1 r w' Hmk H.
    rewrite (saveAsset_after_mkdir _ _ _ _ _ _ _ _ _ Hm Hct Hmk H).
    apply lookup_insert_eq.
Qed.

End RecordedSize.

Lemma saveAsset_records_byteLength_witness :
  let P := Example.platform Example.healthy in
  let caller := {| contentType := "image/png"; fileName := Null;
                   originalSize := Value 999 |} in
  let w' := snd (saveAsset (Example.store "zstd") "u" "a" [x01; x02; x03]
                   1%positive (Example.fresh caller)) in
  heap w' !! 1%positive = Some (set_originalSize 3 caller)
  /\ fst (readAssetMetadata (Example.store "zstd") "u" "a" w')
     = Ok (set_originalSize 3 caller).
Proof.
  intros P caller w'. split; [|reflexivity].
  refine (proj1 (proj2 (proj2
    (proj1 (saveAsset_records_byteLength (P := P) (Example.store "zstd")
              "u" "a" [x01; x02; x03] 1%positive caller (Example.fresh caller)
              eq_refl _) w' _)))).
  - apply (bool_decide_unpack _). vm_compute. exact I.
  - vm_compute. reflexivity.
Defined.

(** ** Decoding is a matter of the bytes on disk *)

(** C2: what a read returns does not depend on the codec the store is
    configured with. Two configurations that differ in the codec name and
    level only give, on every world, the same result for [readAsset] and
    for [createAssetReadStream]; so an asset written under one
    configuration reads the same after the switch to the other. The bytes
    a successful read returns are those of the located file, decoded by
    the codec that [getDataType] reads off their prefix. *)
Theorem read_ignores_configured_codec `{P : Platform} (cfgA cfgB : config)
  (userId assetId : string) :
  assetsDir cfgA = assetsDir cfgB ->
  (forall w,
     readAsset cfgA userId assetId w = readAsset cfgB userId assetId w
     /\ forall start end_,
          createAssetReadStream cfgA userId assetId start end_ w
          = createAssetReadStream cfgB userId assetId start end_ w)
  /\ (forall asset m w,
        let w' := snd (saveAsset cfgA userId assetId asset m w) in
        readAsset cfgB userId assetId w' = readAsset cfgA userId assetId w')
  /\ (forall w asset md w',
        readAsset cfgB userId assetId w = (Ok (asset, md), w') ->
        exists p data,
          getAssetPath (getAssetDir cfgB userId assetId) w = (Ok p, w)
          /\ fs_readFile p w = (Ok data, w)
          /\ asset = decompress data (getDataType data)).
Proof.
  intros Hroot.
  assert (forall w, readAsset cfgA userId assetId w
                    = readAsset cfgB userId assetId w) as Hread.
  { intros w. unfold readAsset, getAssetDir, ROOT_PATH. now rewrite Hroot. }
  repeat split.
  - apply Hread.
  - intros start end_.
    unfold createAssetReadStream, getAssetDir, ROOT_PATH. now rewrite Hroot.
  - intros asset m w w'. symmetry. apply Hread.
  - intros w asset md w' H.
    apply readAsset_Ok_inv in H as (_ & _ & data & Hdata & ->).
    eexists _, data. rewrite getAssetPath_run. now repeat split.
Qed.

Lemma read_ignores_configured_codec_witness :
  let P := Example.platform Example.healthy in
  let w' := snd (saveAsset (Example.store "zstd") "u" "a" [x01; x02; x03]
                   1%positive (Example.fresh Example.png)) in
  readAsset (Example.store "lz4") "u" "a" w'
  = readAsset (Example.store "zstd") "u" "a" w'
  /\ fst (readAsset (Example.store "lz4") "u" "a" w')
     = Ok ([x01; x02; x03], set_originalSize 3 Example.png).
Proof.
  intros P w'. split; [|reflexivity].
  exact (proj1 (proj2
    (read_ignores_configured_codec (P := P)
       (Example.store "zstd") (Example.store "lz4") "u" "a" eq_refl))
    [x01; x02; x03] 1%positive (Example.fresh Example.png)).
Defined.

(** ** The effective size *)



(** ** Range reads *)



(** ** The round trip *)

Lemma getDataType_zstd (data : Buffer) :
  take 4 data = zstdHeader -> getDataType data = zstd.
Proof.
  intros H. unfold getDataType.
  assert (4 <= byteLength data) as Hlen.
  { unfold byteLength. apply (f_equal length) in H.
    rewrite length_take in H. change (length zstdHeader) with 4%nat in H.
    lia. }
  destruct (Z.ltb_spec (byteLength data) 4); [lia|].
  rewrite subarray_prefix by lia. change (Z.to_nat 4) with 4%nat.
  now rewrite (proj2 (Buffer_equals_eq _ _) H).
Qed.

(** Bytes that carry neither the zstd nor the lz4 signature decode to
    themselves, whatever the platform's codecs do. *)
Lemma decompress_unsigned `{P : Platform} (data : Buffer) :
  byteLength data < 4
  \/ (take 4 data <> zstdHeader /\ take 4 data <> lz4Header) ->
  decompress data (getDataType data) = data.
Proof.
  intros H. unfold getDataType.
  destruct (Z.ltb_spec (byteLength data) 4) as [|Hge]; [reflexivity|].
  destruct H as [?|[Hz Hl]]; [lia|].
  rewrite !subarray_prefix by lia.
  change (Z.to_nat 4) with 4%nat. change (Z.to_nat 2) with 2%nat.
  rewrite (proj2 (Buffer_equals_neq _ _) Hz), (proj2 (Buffer_equals_neq _ _) Hl).
  now destruct (Buffer_equals (take 2 data) gzipHeader).
Qed.

Lemma readAsset_root `{P : Platform} (cfgA cfgB : config)
  (userId assetId : string) (w : world) :
  assetsDir cfgA = assetsDir cfgB ->
  readAsset cfgA userId assetId w = readAsset cfgB userId assetId w.
Proof.
  intros Hroot. unfold readAsset, getAssetDir, ROOT_PATH. now rewrite Hroot.
Qed.

Section RoundTrip.
Context {P : Platform} (cfg : config).
Variables (userId assetId : string) (asset : Buffer) (m : loc).
Variables (md : AssetMetadata) (w w' : world).

Let assetDir := getAssetDir cfg userId assetId.
Let md' := set_originalSize (byteLength asset) md.

Hypothesis Hmd : heap w !! m = Some md.
Hypothesis Hsaved : saveAsset cfg userId assetId asset m w = (Ok tt, w').
Hypothesis Hreads :
  forall p, io_fault (SysAccess p) = false /\ io_fault (SysReadFile p) = false.
Hypothesis Hjson :
  JSON_parse (JSON_stringify (metadata_to_json md'))
  = Some (metadata_to_json md').

Lemma sidecar_not_payload (ext : string) :
  assetDir ++ ["metadata.json"] <> assetDir ++ ["asset.bin" +:+ ext].
Proof. intros H. apply app_inv_head in H. discriminate H. Qed.

Lemma payload_not_made (ext : string) :
  assetDir ++ ["asset.bin" +:+ ext] ∉ prefixes assetDir.
Proof.
  intros H. apply prefixes_shorter in H. rewrite length_app in H.
  cbn in H. lia.
Qed.

(** Reading back what was stored at the first candidate that exists. *)
Lemma readAsset_after_save (p : path) (stored : Buffer) :
  first_accessible (fs w') assetDir [""; ".zst"; ".lz4"; ".gz"] = p ->
  p <> [] ->
  node_at (fs w') p = Some (File stored) ->
  readAsset cfg userId assetId w'
  = (Ok (decompress stored (getDataType stored), md'), w').
Proof.
  intros Hp Hne Hstored.
  destruct (saveAsset_Ok_inv cfg _ _ _ _ _ _ _ Hmd Hsaved)
    as (c & ext & _ & Hfs & _).
  fold assetDir md' in Hfs.
  apply (readAsset_run cfg userId assetId w' stored
           (JSON_stringify (metadata_to_json md')) md').
  - fold assetDir. now rewrite Hp.
  - fold assetDir. rewrite Hp. apply fs_readFile_Ok; [apply Hreads | exact Hstored].
  - fold assetDir. apply fs_readFile_Ok; [apply Hreads|].
    rewrite node_at_snoc, Hfs. apply lookup_insert_eq.
  - now apply parse_metadata_stringify.
Qed.

(** Under a codec name that stores the bytes as they are, the payload
    is the first candidate. *)
Lemma readAsset_after_raw_save :
  COMPRESSION_TYPE cfg <> "zstd" -> COMPRESSION_TYPE cfg <> "lz4" ->
  readAsset cfg userId assetId w'
  = (Ok (decompress asset (getDataType asset), md'), w').
Proof.
  intros Hz Hl.
  destruct (saveAsset_Ok_inv cfg _ _ _ _ _ _ _ Hmd Hsaved)
    as (c & ext & Hc & Hfs & _).
  fold assetDir md' in Hfs.
  rewrite (compress_passthrough cfg asset _ Hz Hl) in Hc.
  injection Hc as <- <-.
  assert (node_at (fs w') (assetDir ++ ["asset.bin" +:+ ""])
          = Some (File asset)) as Hfile.
  { rewrite node_at_snoc, Hfs.
    rewrite lookup_insert_ne by apply sidecar_not_payload.
    apply lookup_insert_eq. }
  apply (readAsset_after_save (assetDir ++ ["asset.bin" +:+ ""]));
    [|apply snoc_not_nil|exact Hfile].
  apply first_accessible_here.
  apply (accessible_file _ _ asset); [apply Hreads | exact Hfile].
Qed.

(** Under zstd, in a directory that holds no uncompressed payload, the
    payload is the second candidate. *)
Lemma readAsset_after_zstd_save (c : Buffer) :
  COMPRESSION_TYPE cfg = "zstd" ->
  fs w !! (assetDir ++ ["asset.bin"]) = None ->
  zstd_compress (clamp_level cfg 1 19) asset = Some c ->
  readAsset cfg userId assetId w'
  = (Ok (decompress c (getDataType c), md'), w').
Proof.
  intros Htype Hfresh Hzc.
  destruct (saveAsset_Ok_inv cfg _ _ _ _ _ _ _ Hmd Hsaved)
    as (c' & ext & Hc & Hfs & _).
  fold assetDir md' in Hfs.
  rewrite Htype, compress_zstd, Hzc in Hc. injection Hc as <- <-.
  assert (node_at (fs w') (assetDir ++ ["asset.bin" +:+ ""]) = None) as Hraw.
  { rewrite node_at_snoc, Hfs.
    rewrite lookup_insert_ne by apply sidecar_not_payload.
    rewrite lookup_insert_ne
      by (intros H; apply app_inv_head in H; discriminate H).
    apply make_dirs_new; [exact Hfresh | apply payload_not_made]. }
  assert (node_at (fs w') (assetDir ++ ["asset.bin" +:+ ".zst"])
          = Some (File c)) as Hfile.
  { rewrite node_at_snoc, Hfs.
    rewrite lookup_insert_ne by apply sidecar_not_payload.
    apply lookup_insert_eq. }
  apply (readAsset_after_save (assetDir ++ ["asset.bin" +:+ ".zst"]));
    [|apply snoc_not_nil|exact Hfile].
  rewrite first_accessible_next by (now apply accessible_absent).
  apply first_accessible_here.
  apply (accessible_file _ _ c); [apply Hreads | exact Hfile].
Qed.

End RoundTrip.

(** C1, as the claim states it, fails. Three runs on the example platform,
    each from an empty disk:
    - with no codec configured, the buffer 28 B5 2F FD 20 01 09 00 00 41,
      which is itself a zstd frame (of the single byte 41), is stored as
      it is; the read finds the zstd signature, hands the bytes to the zstd
      decoder and returns the one byte 41;
    - an asset saved with no codec configured is saved again, under the
      same identifiers, after the codec is switched to zstd: the second
      save writes asset.bin.zst beside the old asset.bin, and the read
      takes the first candidate, the old bytes;
    - with lz4 configured, the bytes 01 02 03 are stored as the lz4 block
      30 01 02 03 (one sequence of three literals, what an encoder makes
      of an input too short to hold a match); a block carries no
      signature, so the read returns the block as it is.
    The first two do not depend on the example codecs:
    [readAsset_after_raw_save] and [readAsset_after_save] give the same
    results on every platform. *)
Lemma roundtrip_counterexamples :
  let P := Example.platform Example.healthy in
  (let asset := [x28; xb5; x2f; xfd; x20; x01; x09; x00; x00; x41] in
   let saved := saveAsset (Example.store "none") "u" "a" asset 1%positive
                  (Example.fresh Example.png) in
   contentType Example.png ∈ SUPPORTED_ASSET_TYPES
   /\ fst saved = Ok tt
   /\ fst (readAsset (Example.store "none") "u" "a" (snd saved))
      = Ok ([x41], set_originalSize 10 Example.png)
   /\ [x41] <> asset)
  /\ (let earlier := snd (saveAsset (Example.store "none") "u" "a" [x01]
                            1%positive (Example.fresh Example.png)) in
      let saved := saveAsset (Example.store "zstd") "u" "a" [x02] 1%positive
                     earlier in
      fst saved = Ok tt
      /\ fst (readAsset (Example.store "zstd") "u" "a" (snd saved))
         = Ok ([x01], set_originalSize 1 Example.png)
      /\ [x01] <> [x02])
  /\ (let asset := [x01; x02; x03] in
      let saved := saveAsset (Example.store "lz4") "u" "a" asset 1%positive
                     (Example.fresh Example.png) in
      fst saved = Ok tt
      /\ fst (readAsset (Example.store "lz4") "u" "a" (snd saved))
         = Ok ([x30; x01; x02; x03], set_originalSize 3 Example.png)
      /\ [x30; x01; x02; x03] <> asset).
Proof.
  intros P. split; [|split].
  - intros asset saved. split.
    + apply (bool_decide_unpack _). vm_compute. exact I.
    + split; [reflexivity|]. split; [reflexivity | discriminate].
  - intros earlier saved.
    split; [reflexivity|]. split; [reflexivity | discriminate].
  - intros asset saved.
    split; [reflexivity|]. split; [reflexivity | discriminate].
Qed.

(** C1, amended: for a buffer and a metadata record with an allowed
    content type, once [saveAsset] has returned, [readAsset] for the same
    identifiers, under any configured codec, with no read refused by the
    environment and a sidecar that [JSON.parse] reads back,
    - when the codec configured at the save is neither "zstd" nor "lz4"
      ("gzip", none, or an unknown name), returns the saved bytes decoded
      by the codec their own first bytes name, and so the saved bytes
      themselves whenever the buffer is shorter than 4 bytes or begins with
      neither the zstd nor the lz4 signature;
    - when the codec configured at the save is "zstd", the directory held
      no uncompressed asset.bin before, and the zstd library writes its
      signature and inverts its own output on this buffer, returns the saved
      bytes.
    The metadata returned is the saved one with [originalSize] set to the
    length of the buffer. Nothing is said about "lz4". *)
Theorem roundtrip_amended `{P : Platform} (cfg cfgR : config)
  (userId assetId : string) (asset : Buffer) (m : loc) (md : AssetMetadata)
  (w w' : world) :
  heap w !! m = Some md ->
  contentType md ∈ SUPPORTED_ASSET_TYPES ->
  saveAsset cfg userId assetId asset m w = (Ok tt, w') ->
  assetsDir cfgR = assetsDir cfg ->
  (forall p,
     io_fault (SysAccess p) = false /\ io_fault (SysReadFile p) = false) ->
  let md' := set_originalSize (byteLength asset) md in
  JSON_parse (JSON_stringify (metadata_to_json md'))
  = Some (metadata_to_json md') ->
  (compressionType cfg <> "zstd" -> compressionType cfg <> "lz4" ->
   readAsset cfgR userId assetId w'
   = (Ok (decompress asset (getDataType asset), md'), w')
   /\ (byteLength asset < 4
       \/ (take 4 asset <> zstdHeader /\ take 4 asset <> lz4Header) ->
       readAsset cfgR userId assetId w' = (Ok (asset, md'), w')))
  /\ (compressionType cfg = "zstd" ->
      fs w !! (getAssetDir cfg userId assetId ++ ["asset.bin"]) = None ->
      (forall c,
         zstd_compress (clamp_level cfg 1 19) asset = Some c ->
         take 4 c = zstdHeader /\ zstd_decompress c = Some asset) ->
      readAsset cfgR userId assetId w' = (Ok (asset, md'), w')).
Proof.
  intros Hmd _ Hsaved Hroot Hreads md' Hjson.
  rewrite (readAsset_root cfgR cfg userId assetId w' Hroot). split.
  - intros Hz Hl.
    pose proof (readAsset_after_raw_save cfg userId assetId asset m md w w'
                  Hmd Hsaved Hreads Hjson Hz Hl) as Hread.
    fold md' in Hread. split; [exact Hread|].
    intros Hplain. now rewrite Hread, (decompress_unsigned asset Hplain).
  - intros Htype Hfresh Hzstd.
    destruct (saveAsset_Ok_inv cfg _ _ _ _ _ _ _ Hmd Hsaved)
      as (c' & ext & Hc & _).
    unfold COMPRESSION_TYPE in Hc. rewrite Htype, compress_zstd in Hc.
    destruct (zstd_compress (clamp_level cfg 1 19) asset) as [c|] eqn:Hzc;
      [|discriminate].
    destruct (Hzstd c eq_refl) as [Hmagic Hinv].
    rewrite (readAsset_after_zstd_save cfg userId assetId asset m md w w'
               Hmd Hsaved Hreads Hjson c Htype Hfresh Hzc).
    rewrite (getDataType_zstd c Hmagic). unfold decompress.
    now rewrite Hinv.
Qed.

Lemma roundtrip_amended_witness :
  let P := Example.platform Example.healthy in
  let w' := snd (saveAsset (Example.store "zstd") "u" "a" [x01; x02; x03]
                   1%positive (Example.fresh Example.png)) in
  readAsset (Example.store "lz4") "u" "a" w'
  = (Ok ([x01; x02; x03], set_originalSize 3 Example.png), w').
Proof.
  intros P w'.
  refine (proj2 (roundtrip_amended (P := P) (Example.store "zstd")
                   (Example.store "lz4") "u" "a" [x01; x02; x03] 1%positive
                   Example.png (Example.fresh Example.png) w'
                   eq_refl _ eq_refl eq_refl (fun _ => conj eq_refl eq_refl)
                   eq_refl)
            eq_refl eq_refl _).
  - apply (bool_decide_unpack _). vm_compute. exact I.
  - intros c Hc. vm_compute in Hc. injection Hc as <-. split; reflexivity.
Defined.

(** ** Ingesting an existing file *)

Section FromFile.
Context {P : Platform} (cfg : config).
Variables (userId assetId : string) (assetPath : path) (m : loc).

Let assetDir := getAssetDir cfg userId assetId.
Let payload := assetDir ++ ["asset.bin"].
Let sidecar := assetDir ++ ["metadata.json"].

(** How a call of [saveAssetFromFile] goes: it is rejected before the
    disk is touched, or the directory is made, the copy and the sidecar
    write are both attempted, and [rm] runs only when both went through. *)
Lemma saveAssetFromFile_cases w r w' :
  saveAssetFromFile cfg userId assetId assetPath m w = (r, w') ->
  ((exists e, r = Throw e) /\ w' = w)
  \/ exists md ra w2 rb w3,
       heap w !! m = Some md
       /\ contentType md ∈ SUPPORTED_ASSET_TYPES
       /\ fs_mkdir_recursive assetDir w
          = (Ok tt, with_fs (make_dirs (prefixes assetDir)) w)
       /\ fs_copyFile assetPath payload
            (with_fs (make_dirs (prefixes assetDir)) w) = (ra, w2)
       /\ fs_writeFile sidecar (JSON_stringify (metadata_to_json md)) w2
          = (rb, w3)
       /\ (((ra <> Ok tt \/ rb <> Ok tt) /\ (exists e, r = Throw e) /\ w' = w3)
           \/ (ra = Ok tt /\ rb = Ok tt /\ fs_rm assetPath w3 = (r, w'))).
Proof.
  intros H. unfold saveAssetFromFile in H. fold assetDir payload sidecar in H.
  apply bind_inv in H as [(md & w0 & Hderef & H)|(e & Hderef & ->)].
  2:{ left. unfold deref, or_throw in Hderef.
      destruct (heap w !! m); inversion Hderef; subst; eauto. }
  unfold deref, or_throw in Hderef.
  destruct (heap w !! m) as [md0|] eqn:Hm; inversion Hderef; subst w0 md0.
  unfold Set_has in H. case_bool_decide as Hct; cbn [negb] in H.
  2:{ left. inversion H; subst; eauto. }
  apply bind_inv in H as [([] & w1 & Hmk & H)|(e & Hmk & ->)].
  2:{ left. apply fs_mkdir_recursive_inv in Hmk as [(? & _)|[_ ->]];
        [discriminate | eauto]. }
  pose proof Hmk as Hmk'.
  apply fs_mkdir_recursive_inv in Hmk' as [(_ & _ & ->)|[[e He] _]];
    [|discriminate].
  right.
  apply bind_inv in H as [([[] []] & w3 & Hall & H)|(e & Hall & ->)];
    apply Promise_all_inv in Hall as (ra & w2 & rb & Ha & Hb & Hr).
  - exists md, ra, w2, rb, w3. repeat split; try assumption.
    right. destruct ra as [[]|], rb as [[]|]; try discriminate Hr. auto.
  - exists md, ra, w2, rb, w'. repeat split; try assumption.
    left. repeat split; eauto.
    destruct ra as [[]|], rb as [[]|]; try discriminate Hr;
      [right | left | left]; discriminate.
Qed.

(** The two writes leave a file that was at the source path a file, and,
    unless the sidecar is written over it, with its bytes. *)
Lemma source_survives_writes w ra w2 rb w3 data json :
  node_at (fs w) assetPath = Some (File data) ->
  fs_copyFile assetPath payload (with_fs (make_dirs (prefixes assetDir)) w)
  = (ra, w2) ->
  fs_writeFile sidecar json w2 = (rb, w3) ->
  is_file (fs w3) assetPath = true
  /\ (assetPath <> sidecar -> node_at (fs w3) assetPath = Some (File data)).
Proof.
  intros Hsrc Ha Hb.
  assert (assetPath <> []) as Hne by (intros ->; discriminate Hsrc).
  assert (forall d, node_at d assetPath = d !! assetPath) as Hat
    by (intros d; now destruct assetPath).
  rewrite Hat in Hsrc.
  assert (fs w2 !! assetPath = Some (File data)) as Hsrc2.
  { apply fs_copyFile_inv in Ha as [(_ & _ & data' & Hsrc' & ->)|[_ ->]];
      cbn [fs with_fs] in *.
    - rewrite Hat, (make_dirs_keeps _ _ _ _ Hsrc) in Hsrc'.
      injection Hsrc' as <-.
      rewrite lookup_insert. case_decide; [reflexivity|].
      now apply make_dirs_keeps.
    - now apply make_dirs_keeps. }
  unfold is_file. rewrite !Hat.
  apply fs_writeFile_inv in Hb as [(_ & _ & ->)|[_ ->]]; cbn [fs with_fs].
  - rewrite lookup_insert. case_decide as Heq.
    + split; [reflexivity|]. intros Hs. now destruct Hs.
    + now rewrite Hsrc2.
  - now rewrite Hsrc2.
Qed.

(** A copy or a sidecar write that fails, the directory made, settles
    the call: it rejects, and nothing runs after the two writes. *)
Lemma saveAssetFromFile_write_fails w r w' md w1 ra w2 rb w3 :
  saveAssetFromFile cfg userId assetId assetPath m w = (r, w') ->
  heap w !! m = Some md ->
  contentType md ∈ SUPPORTED_ASSET_TYPES ->
  fs_mkdir_recursive assetDir w = (Ok tt, w1) ->
  fs_copyFile assetPath payload w1 = (ra, w2) ->
  fs_writeFile sidecar (JSON_stringify (metadata_to_json md)) w2 = (rb, w3) ->
  ra <> Ok tt \/ rb <> Ok tt ->
  (exists e, r = Throw e) /\ w' = w3.
Proof.
  intros H Hm Hct Hmk Ha Hb Hfail. unfold saveAssetFromFile in H.
  fold assetDir payload sidecar in H.
  rewrite (bind_Ok _ _ w md w) in H by (unfold deref; now rewrite Hm).
  unfold Set_has in H. rewrite bool_decide_eq_true_2 in H by exact Hct.
  cbn [negb] in H. rewrite (bind_Ok _ _ _ _ _ Hmk) in H.
  assert (exists e,
            Promise_all (fs_copyFile assetPath payload)
              (fs_writeFile sidecar (JSON_stringify (metadata_to_json md))) w1
            = (Throw e, w3)) as [e Hall].
  { unfold Promise_all. rewrite Ha, Hb.
    destruct ra as [[]|ea], rb as [[]|eb]; eauto.
    destruct Hfail as [Hf|Hf]; now destruct Hf. }
  rewrite (bind_Throw _ _ _ _ _ Hall) in H. inversion H; subst. eauto.
Qed.

(** C7: [saveAssetFromFile] removes the source file only after the copy
    and the sidecar write have both gone through.
    - When the call rejects, for whatever reason, a file that was at the
      source path is still a file there, and (unless the source is the
      sidecar path itself) still holds its bytes.
    - When the call returns, the source path is gone, the source was a
      file, and (unless the source is the store's own asset.bin) asset.bin
      holds its bytes.
    - When, the directory made, the copy or the sidecar write fails, the
      call rejects, and the world it leaves is the one the two writes
      left: [rm] was not run. *)
Theorem saveAssetFromFile_source (w : world) (r : result unit) (w' : world) :
  saveAssetFromFile cfg userId assetId assetPath m w = (r, w') ->
  (forall e data,
     r = Throw e ->
     node_at (fs w) assetPath = Some (File data) ->
     is_file (fs w') assetPath = true
     /\ (assetPath <> sidecar -> node_at (fs w') assetPath = Some (File data)))
  /\ (r = Ok tt ->
      node_at (fs w') assetPath = None
      /\ exists data,
           node_at (fs w) assetPath = Some (File data)
           /\ (assetPath <> payload -> fs w' !! payload = Some (File data)))
  /\ (forall md w1 ra w2 rb w3,
        heap w !! m = Some md ->
        contentType md ∈ SUPPORTED_ASSET_TYPES ->
        fs_mkdir_recursive assetDir w = (Ok tt, w1) ->
        fs_copyFile assetPath payload w1 = (ra, w2) ->
        fs_writeFile sidecar (JSON_stringify (metadata_to_json md)) w2
        = (rb, w3) ->
        ra <> Ok tt \/ rb <> Ok tt ->
        (exists e, r = Throw e) /\ w' = w3).
Proof.
  intros H. split; [|split].
  - intros e data -> Hsrc.
    apply saveAssetFromFile_cases in H
      as [[_ ->]|(md & ra & w2 & rb & w3 & _ & _ & _ & Ha & Hb & Hend)].
    { unfold is_file. now rewrite Hsrc. }
    destruct Hend as [(_ & _ & ->)|(_ & _ & Hrm)].
    + exact (source_survives_writes _ _ _ _ _ _ _ Hsrc Ha Hb).
    + apply fs_rm_inv in Hrm as [(? & _)|[_ ->]]; [discriminate|].
      exact (source_survives_writes _ _ _ _ _ _ _ Hsrc Ha Hb).
  - intros ->.
    apply saveAssetFromFile_cases in H
      as [[[e ?] _]|(md & ra & w2 & rb & w3 & _ & _ & _ & Ha & Hb & Hend)];
      [discriminate|].
    destruct Hend as [(_ & [e ?] & _)|(-> & -> & Hrm)]; [discriminate|].
    apply fs_rm_inv in Hrm as [(_ & ->)|[[e ?] _]]; [|discriminate].
    apply fs_copyFile_inv in Ha as [(_ & _ & data & Hsrc & ->)|[[e ?] _]];
      [|discriminate].
    apply fs_writeFile_inv in Hb as [(_ & _ & ->)|[[e ?] _]]; [|discriminate].
    assert (assetPath <> []) as Hne by (intros ->; discriminate Hsrc).
    assert (forall d, node_at d assetPath = d !! assetPath) as Hat
      by (intros d; now destruct assetPath).
    cbn [fs with_fs] in *. rewrite Hat in *. split.
    + apply lookup_delete_eq.
    + exists data. split; [rewrite Hat; now apply make_dirs_file in Hsrc|].
      intros Hpay. rewrite lookup_delete_ne by exact Hpay.
      rewrite lookup_insert_ne
        by (intros Heq; apply app_inv_head in Heq; discriminate Heq).
      apply lookup_insert_eq.
  - intros md w1 ra w2 rb w3.
    exact (saveAssetFromFile_write_fails _ _ _ _ _ _ _ _ _ H).
Qed.

End FromFile.

Lemma saveAssetFromFile_source_witness :
  (let P := Example.platform Example.refuse_copy in
   let run := saveAssetFromFile (Example.store "zstd") "u" "a"
                ["tmp"; "upload"] 1%positive Example.uploaded in
   fst run
   = Throw (FsError EIO (SysCopyFile ["tmp"; "upload"]
                           ["assets"; "u"; "a"; "asset.bin"]))
   /\ is_file (fs (snd run)) ["tmp"; "upload"] = true
   /\ node_at (fs (snd run)) ["tmp"; "upload"] = Some (File [x00; x01; x02]))
  /\ (let P := Example.platform Example.healthy in
      let run := saveAssetFromFile (Example.store "zstd") "u" "a"
                   ["tmp"; "upload"] 1%positive Example.uploaded in
      fst run = Ok tt
      /\ node_at (fs (snd run)) ["tmp"; "upload"] = None
      /\ fs (snd run) !! ["assets"; "u"; "a"; "asset.bin"]
         = Some (File [x00; x01; x02])).
Proof.
  split.
  - intros P run. split; [reflexivity|].
    destruct (proj1 (saveAssetFromFile_source (P := P) (Example.store "zstd")
                       "u" "a" ["tmp"; "upload"] 1%positive Example.uploaded
                       (fst run) (snd run) eq_refl)
                _ [x00; x01; x02] eq_refl eq_refl) as [Hfile Hbytes].
    split; [exact Hfile | apply Hbytes; discriminate].
  - intros P run. split; [reflexivity|].
    destruct (proj1 (proj2
                (saveAssetFromFile_source (P := P) (Example.store "zstd")
                   "u" "a" ["tmp"; "upload"] 1%positive Example.uploaded
                   (fst run) (snd run) eq_refl))
                eq_refl) as (Hgone & data & Hsrc & Hcopied).
    split; [exact Hgone|].
    injection Hsrc as <-. apply Hcopied. discriminate.
Defined.

(** * Further properties *)

(** ** Reads leave the world alone *)

Section ReadFacts.
Context {P : Platform}.

Lemma fs_readFile_world p w r w' : fs_readFile p w = (r, w') -> w' = w.
Proof.
  intros [(_ & _ & ->)|[_ H]]%syscall_run_inv; [reflexivity|].
  destruct (node_at (fs w) p) as [[|d]|]; now inversion H.
Qed.

Lemma fs_stat_world p w r w' : fs_stat p w = (r, w') -> w' = w.
Proof.
  intros [(_ & _ & ->)|[_ H]]%syscall_run_inv; [reflexivity|].
  destruct (node_at (fs w) p) as [[|d]|]; now inversion H.
Qed.

Lemma parse_metadata_world b w r w' : parse_metadata b w = (r, w') -> w' = w.
Proof.
  intros H. destruct (parse_metadata_pure b w) as [r' Hr].
  rewrite Hr in H. now inversion H.
Qed.

Lemma readAssetMetadata_world cfg userId assetId w r w' :
  readAssetMetadata cfg userId assetId w = (r, w') -> w' = w.
Proof.
  unfold readAssetMetadata. intros H.
  apply bind_inv in H as [(b & w1 & Hb & H)|(e & Hb & _)].
  - apply fs_readFile_world in Hb as ->. now apply parse_metadata_world in H.
  - now apply fs_readFile_world in Hb.
Qed.

Lemma getAssetSize_world cfg userId assetId w r w' :
  getAssetSize cfg userId assetId w = (r, w') -> w' = w.
Proof.
  unfold getAssetSize. intros H.
  apply bind_inv in H as [(md & w1 & Hmd & H)|(e & Hmd & _)];
    apply readAssetMetadata_world in Hmd as ->; [|reflexivity].
  assert ((assetPath <- getAssetPath (getAssetDir cfg userId assetId) ;;
           stat <- fs_stat assetPath ;; ret (stat_size stat)) w = (r, w')
          -> w' = w) as Hfallback.
  { intros H'. rewrite (bind_Ok _ _ _ _ _ (getAssetPath_run _ w)) in H'.
    apply bind_inv in H' as [(st & w1 & Hst & H')|(e & Hst & _)];
      apply fs_stat_world in Hst as ->; [now inversion H' | reflexivity]. }
  destruct (originalSize md); auto. now inversion H.
Qed.

Lemma readAsset_world cfg userId assetId w r w' :
  readAsset cfg userId assetId w = (r, w') -> w' = w.
Proof.
  unfold readAsset. intros H.
  rewrite (bind_Ok _ _ _ _ _ (getAssetPath_run _ w)) in H.
  destruct (first_accessible _ _ _) as [|s p]; [now inversion H|].
  apply bind_inv in H as [(data & w1 & Hd & H)|(e & Hd & _)];
    apply fs_readFile_world in Hd as ->; [|reflexivity].
  apply bind_inv in H as [([a b] & w1 & Hall & H)|(e & Hall & _)];
    apply Promise_all_inv in Hall as (ra & w2 & rb & Ha & Hb & _);
    inversion Ha; subst w2; apply fs_readFile_world in Hb as ->;
    [|reflexivity].
  apply bind_inv in H as [(md & w1 & Hp & H)|(e & Hp & _)];
    apply parse_metadata_world in Hp as ->; [now inversion H | reflexivity].
Qed.

Lemma createAssetReadStream_world cfg userId assetId start end_ w r w' :
  createAssetReadStream cfg userId assetId start end_ w = (r, w') -> w' = w.
Proof.
  unfold createAssetReadStream. intros H.
  rewrite (bind_Ok _ _ _ _ _ (getAssetPath_run _ w)) in H.
  apply bind_inv in H as [(data & w1 & Hd & H)|(e & Hd & _)];
    apply fs_readFile_world in Hd as ->; [now inversion H | reflexivity].
Qed.

End ReadFacts.

(** X1: the reading operations never change anything: however
    [getAssetPath], [readAsset], [createAssetReadStream],
    [readAssetMetadata] and [getAssetSize] settle, the disk and the callers'
    objects are as before; and [getAssetPath] itself never rejects. *)
Theorem reads_leave_the_world `{P : Platform} (cfg : config)
  (userId assetId : string) (w : world) :
  (exists p, getAssetPath (getAssetDir cfg userId assetId) w = (Ok p, w))
  /\ snd (readAsset cfg userId assetId w) = w
  /\ (forall start end_,
        snd (createAssetReadStream cfg userId assetId start end_ w) = w)
  /\ snd (readAssetMetadata cfg userId assetId w) = w
  /\ snd (getAssetSize cfg userId assetId w) = w.
Proof.
  split; [eexists; apply getAssetPath_run|].
  split; [eapply readAsset_world, surjective_pairing|].
  split; [intros; eapply createAssetReadStream_world, surjective_pairing|].
  split; [eapply readAssetMetadata_world, surjective_pairing|].
  eapply getAssetSize_world, surjective_pairing.
Qed.

(** ** The probe order *)

Section ProbeFacts.
Context {P : Platform}.

Lemma accessible_iff (d : gmap path node) (p : path) (s : string) :
  io_fault (SysAccess (p ++ [s])) = false ->
  accessible d (p ++ [s]) = true <-> is_Some (d !! (p ++ [s])).
Proof.
  intros Hok. unfold accessible. rewrite Hok, node_at_snoc. cbn [negb andb].
  destruct (d !! (p ++ [s])); split; intros H; try easy; now destruct H.
Qed.

Lemma first_accessible_none (d : gmap path node) (assetDir : path)
  (exts : list string) :
  (forall ext, ext ∈ exts -> d !! (assetDir ++ ["asset.bin" +:+ ext]) = None) ->
  first_accessible d assetDir exts = [].
Proof.
  induction exts as [|ext rest IH]; intros Hnone; [reflexivity|].
  rewrite first_accessible_next.
  - apply IH. intros e He. apply Hnone. now right.
  - apply accessible_absent. rewrite node_at_snoc. apply Hnone. now left.
Qed.

Lemma first_accessible_order (d : gmap path node) (assetDir : path)
  (exts : list string) :
  (forall p, io_fault (SysAccess p) = false) ->
  (first_accessible d assetDir exts = []
   /\ forall ext, ext ∈ exts ->
                  d !! (assetDir ++ ["asset.bin" +:+ ext]) = None)
  \/ exists earlier ext later,
       exts = earlier ++ ext :: later
       /\ first_accessible d assetDir exts = assetDir ++ ["asset.bin" +:+ ext]
       /\ is_Some (d !! (assetDir ++ ["asset.bin" +:+ ext]))
       /\ forall e, e ∈ earlier ->
                    d !! (assetDir ++ ["asset.bin" +:+ e]) = None.
Proof.
  intros Hok. induction exts as [|ext rest IH].
  - left. split; [reflexivity|]. intros ext Hin. inversion Hin.
  - destruct (accessible d (assetDir ++ ["asset.bin" +:+ ext])) eqn:Hacc.
    + right. exists [], ext, rest. split; [reflexivity|].
      split; [now apply first_accessible_here|].
      split; [now apply accessible_iff in Hacc|].
      intros e He. inversion He.
    + assert (d !! (assetDir ++ ["asset.bin" +:+ ext]) = None) as Hnone.
      { destruct (d !! (assetDir ++ ["asset.bin" +:+ ext])) eqn:Hd;
          [|reflexivity].
        assert (accessible d (assetDir ++ ["asset.bin" +:+ ext]) = true)
          as Hyes by (apply accessible_iff; [apply Hok | now rewrite Hd]).
        congruence. }
      rewrite (first_accessible_next _ _ _ _ Hacc).
      destruct IH as [[Hp Hall]|(earlier & e & later & -> & Hp & Hsome & Hall)].
      * left. split; [exact Hp|].
        intros e [->|He]%elem_of_cons; [exact Hnone | now apply Hall].
      * right. exists (ext :: earlier), e, later. split; [reflexivity|].
        split; [exact Hp|]. split; [exact Hsome|].
        intros e' [->|He]%elem_of_cons; [exact Hnone | now apply Hall].
Qed.

End ProbeFacts.

(** X2: [getAssetPath] never rejects and changes nothing. With no
    [access] refused by the environment, it answers the first of asset.bin,
    asset.bin.zst, asset.bin.lz4, asset.bin.gz that exists in the directory
    (file or not), every candidate before it being absent, and the empty
    path when none of the four exists. *)
Theorem getAssetPath_probe_order `{P : Platform} (assetDir : path) (w : world) :
  (forall p, io_fault (SysAccess p) = false) ->
  exists p,
    getAssetPath assetDir w = (Ok p, w)
    /\ ((p = []
         /\ forall ext, ext ∈ [""; ".zst"; ".lz4"; ".gz"] ->
                        fs w !! (assetDir ++ ["asset.bin" +:+ ext]) = None)
        \/ exists earlier ext later,
             [""; ".zst"; ".lz4"; ".gz"] = earlier ++ ext :: later
             /\ p = assetDir ++ ["asset.bin" +:+ ext]
             /\ is_Some (fs w !! p)
             /\ forall e, e ∈ earlier ->
                          fs w !! (assetDir ++ ["asset.bin" +:+ e]) = None).
Proof.
  intros Hok. eexists. split; [apply getAssetPath_run|].
  destruct (first_accessible_order (fs w) assetDir
              [""; ".zst"; ".lz4"; ".gz"] Hok)
    as [[Hp Hall]|(earlier & ext & later & Hsplit & Hp & Hsome & Hall)].
  - left. now split.
  - right. exists earlier, ext, later. rewrite Hp. now repeat split.
Qed.

Lemma getAssetPath_probe_order_witness :
  let P := Example.platform Example.healthy in
  let d := ["assets"; "u"; "a"] in
  let w := {| fs := <[d ++ ["asset.bin.gz"] := File [x1f; x8b]]>
                      (<[d ++ ["asset.bin.lz4"] := File [x10; x41]]>
                         (<[d := Dir]> ∅));
              heap := ∅ |} in
  exists p,
    getAssetPath d w = (Ok p, w)
    /\ ((p = []
         /\ forall ext, ext ∈ [""; ".zst"; ".lz4"; ".gz"] ->
                        fs w !! (d ++ ["asset.bin" +:+ ext]) = None)
        \/ exists earlier ext later,
             [""; ".zst"; ".lz4"; ".gz"] = earlier ++ ext :: later
             /\ p = d ++ ["asset.bin" +:+ ext]
             /\ is_Some (fs w !! p)
             /\ forall e, e ∈ earlier ->
                          fs w !! (d ++ ["asset.bin" +:+ e]) = None).
Proof.
  intros P d w.
  exact (getAssetPath_probe_order (P := P) d w (fun _ => eq_refl)).
Defined.

(** ** Missing payloads and sidecars *)

(** X3: when the directory of an asset holds none of the four payload
    candidates, [readAsset] rejects with the asset-file-not-found error that
    names the asset; [createAssetReadStream], which does not test the
    answer of [getAssetPath], rejects with the file-system error of reading
    the empty path; and [getAssetSize], when the sidecar is there without a
    numeric [originalSize], rejects with the file-system error of [stat] on
    the empty path. *)
Theorem no_payload_outcomes `{P : Platform} (cfg : config)
  (userId assetId : string) (w : world) :
  (forall ext, ext ∈ [""; ".zst"; ".lz4"; ".gz"] ->
     fs w !! (getAssetDir cfg userId assetId ++ ["asset.bin" +:+ ext]) = None) ->
  readAsset cfg userId assetId w = (Throw (AssetFileNotFound assetId), w)
  /\ (forall start end_,
        exists code,
          createAssetReadStream cfg userId assetId start end_ w
          = (Throw (FsError code (SysReadFile [])), w))
  /\ (forall md,
        readAssetMetadata cfg userId assetId w = (Ok md, w) ->
        (forall n, originalSize md <> Value n) ->
        exists code,
          getAssetSize cfg userId assetId w
          = (Throw (FsError code (SysStat [])), w)).
Proof.
  intros Hnone.
  pose proof (first_accessible_none (fs w) _ _ Hnone) as Hp.
  split; [|split].
  - unfold readAsset.
    rewrite (bind_Ok _ _ _ _ _ (getAssetPath_run _ w)). now rewrite Hp.
  - intros start end_. unfold createAssetReadStream.
    rewrite (bind_Ok _ _ _ _ _ (getAssetPath_run _ w)). rewrite Hp.
    unfold bind, fs_readFile, syscall_run.
    destruct (io_fault (SysReadFile [])); eexists; reflexivity.
  - intros md Hmd Hsize. unfold getAssetSize.
    rewrite (bind_Ok _ _ _ _ _ Hmd).
    assert (exists code,
              (assetPath <- getAssetPath (getAssetDir cfg userId assetId) ;;
               stat <- fs_stat assetPath ;; ret (stat_size stat)) w
              = (Throw (FsError code (SysStat [])), w)) as Hfallback.
    { rewrite (bind_Ok _ _ _ _ _ (getAssetPath_run _ w)). rewrite Hp.
      unfold bind, fs_stat, syscall_run.
      destruct (io_fault (SysStat [])); eexists; reflexivity. }
    destruct (originalSize md) as [| |n]; try exact Hfallback.
    now destruct (Hsize n).
Qed.

Lemma no_payload_outcomes_witness :
  let P := Example.platform Example.healthy in
  readAsset (Example.store "zstd") "u" "a" (Example.fresh Example.png)
  = (Throw (AssetFileNotFound "a"), Example.fresh Example.png).
Proof.
  intros P.
  refine (proj1 (no_payload_outcomes (P := P) (Example.store "zstd") "u" "a"
                   (Example.fresh Example.png) _)).
  intros ext _. reflexivity.
Defined.



(** ** When a save goes through *)

Section SaveFacts.
Context {P : Platform} (cfg : config).

Lemma getAssetDir_not_nil (userId assetId : string) :
  getAssetDir cfg userId assetId <> [].
Proof. unfold getAssetDir. now destruct (ROOT_PATH cfg). Qed.

Lemma dirname_snoc (p : path) (s : string) : dirname (p ++ [s]) = p.
Proof. apply removelast_last. Qed.

Lemma is_directory_Dir (d : gmap path node) (p : path) :
  d !! p = Some Dir -> is_directory d p = true.
Proof. intros H. unfold is_directory. destruct p; [reflexivity|]. now rewrite H. Qed.

Lemma make_dirs_other (ps : list path) (d : gmap path node) (q : path) :
  q ∉ ps -> make_dirs ps d !! q = d !! q.
Proof.
  intros Hq. rewrite make_dirs_lookup. destruct (d !! q); [reflexivity|].
  now rewrite bool_decide_eq_false_2.
Qed.

(** [mkdir -p] goes through when no file is on the way. *)
Lemma fs_mkdir_recursive_Ok (p : path) w :
  io_fault (SysMkdir p) = false ->
  p <> [] ->
  (forall q data, q ∈ prefixes p -> fs w !! q <> Some (File data)) ->
  fs_mkdir_recursive p w = (Ok tt, with_fs (make_dirs (prefixes p)) w).
Proof.
  intros Hok Hne Hfree. unfold fs_mkdir_recursive, syscall_run. rewrite Hok.
  destruct p as [|s p]; [easy|].
  destruct (existsb (is_file (fs w)) (prefixes (s :: p))) eqn:Hex;
    [|reflexivity].
  apply existsb_exists in Hex as (q & Hin & Hfile).
  apply list_elem_of_In in Hin. unfold is_file in Hfile.
  destruct q as [|x q]; [discriminate Hfile|]. cbn [node_at] in Hfile.
  destruct (fs w !! (x :: q)) as [[|data]|] eqn:Hq; try discriminate Hfile.
  now destruct (Hfree (x :: q) data Hin).
Qed.

(** The directory is there once [mkdir -p] is through. *)
Lemma make_dirs_made (p : path) (d : gmap path node) :
  p <> [] ->
  (forall q data, q ∈ prefixes p -> d !! q <> Some (File data)) ->
  make_dirs (prefixes p) d !! p = Some Dir.
Proof.
  intros Hne Hfree. rewrite make_dirs_lookup.
  destruct (d !! p) as [[|data]|] eqn:Hp.
  - reflexivity.
  - now destruct (Hfree p data (prefixes_self p Hne)).
  - now rewrite bool_decide_eq_true_2 by now apply prefixes_self.
Qed.

Lemma put_file_Ok call (dir : path) (s : string) data w :
  fs w !! dir = Some Dir ->
  fs w !! (dir ++ [s]) <> Some Dir ->
  put_file call (dir ++ [s]) data w
  = (Ok tt, with_fs (insert (dir ++ [s]) (File data)) w).
Proof.
  intros Hdir Hnot. unfold put_file.
  destruct (dir ++ [s]) as [|x q] eqn:Hp; [now apply snoc_not_nil in Hp|].
  rewrite <- Hp in *. rewrite dirname_snoc, (is_directory_Dir _ _ Hdir).
  destruct (fs w !! (dir ++ [s])) as [[|d]|]; [easy | reflexivity | reflexivity].
Qed.

Lemma fs_writeFile_Ok (dir : path) (s : string) data w :
  io_fault (SysWriteFile (dir ++ [s])) = false ->
  fs w !! dir = Some Dir ->
  fs w !! (dir ++ [s]) <> Some Dir ->
  fs_writeFile (dir ++ [s]) data w
  = (Ok tt, with_fs (insert (dir ++ [s]) (File data)) w).
Proof.
  intros Hok Hdir Hnot. unfold fs_writeFile, syscall_run. rewrite Hok.
  now apply put_file_Ok.
Qed.

Lemma snoc_longer (p : path) (s : string) : p ++ [s] <> p.
Proof.
  intros H. apply (f_equal length) in H. rewrite length_app in H.
  cbn in H. lia.
Qed.

Lemma child_not_on_the_way (p : path) (s : string) : p ++ [s] ∉ prefixes p.
Proof.
  intros H. apply prefixes_shorter in H. rewrite length_app in H.
  cbn in H. lia.
Qed.

End SaveFacts.

(** X5: [saveAsset] goes through whenever nothing stands in its way: for
    metadata with an allowed content type, a codec that does not reject, a
    [mkdir] and two [writeFile]s that the environment does not refuse, no
    file at the asset directory or above it, and no directory in the place
    of the payload or of the sidecar, it returns; afterwards the asset
    directory is a directory and the payload file holds the codec's output
    under the codec's suffix. An existing asset directory is no obstacle. *)
Theorem saveAsset_succeeds `{P : Platform} (cfg : config)
  (userId assetId : string) (asset : Buffer) (m : loc) (md : AssetMetadata)
  (w : world) (compressed : Buffer) (extension : string) :
  heap w !! m = Some md ->
  contentType md ∈ SUPPORTED_ASSET_TYPES ->
  compress cfg asset (COMPRESSION_TYPE cfg) = Ok (compressed, extension) ->
  let assetDir := getAssetDir cfg userId assetId in
  let payload := assetDir ++ ["asset.bin" +:+ extension] in
  let sidecar := assetDir ++ ["metadata.json"] in
  io_fault (SysMkdir assetDir) = false ->
  io_fault (SysWriteFile payload) = false ->
  io_fault (SysWriteFile sidecar) = false ->
  (forall q data, q ∈ prefixes assetDir -> fs w !! q <> Some (File data)) ->
  fs w !! payload <> Some Dir ->
  fs w !! sidecar <> Some Dir ->
  exists w',
    saveAsset cfg userId assetId asset m w = (Ok tt, w')
    /\ fs w' !! assetDir = Some Dir
    /\ fs w' !! payload = Some (File compressed).
Proof.
  intros Hm Hct Hc assetDir payload sidecar Hmk Hwp Hws Hfree Hpay Hside.
  pose proof (getAssetDir_not_nil cfg userId assetId) as Hne.
  fold assetDir in Hne.
  pose proof (fs_mkdir_recursive_Ok assetDir w Hmk Hne Hfree) as Hmkdir.
  pose proof (make_dirs_made assetDir (fs w) Hne Hfree) as Hdir.
  assert (make_dirs (prefixes assetDir) (fs w) !! payload <> Some Dir) as Hpay1.
  { unfold payload.
    now rewrite make_dirs_other by apply child_not_on_the_way. }
  assert (make_dirs (prefixes assetDir) (fs w) !! sidecar <> Some Dir) as Hside1.
  { unfold sidecar.
    now rewrite make_dirs_other by apply child_not_on_the_way. }
  eexists. split; [|split].
  - unfold saveAsset. fold assetDir.
    rewrite (bind_Ok _ _ w md w) by (unfold deref; now rewrite Hm).
    unfold Set_has. rewrite bool_decide_eq_true_2 by exact Hct. cbn [negb].
    rewrite (bind_Ok _ _ _ _ _ Hmkdir).
    rewrite (bind_Ok (assign_originalSize m (byteLength asset)) _ _ tt _ eq_refl).
    rewrite Hc. rewrite (bind_Ok _ _ _ (compressed, extension) _) by reflexivity.
    rewrite (bind_Ok _ _ _ (set_originalSize (byteLength asset) md) _)
      by (unfold deref; cbn [heap with_heap with_fs];
          now rewrite lookup_alter_eq, Hm).
    erewrite bind_Ok; [reflexivity|].
    unfold Promise_all. fold payload sidecar.
    unfold payload at 1. rewrite fs_writeFile_Ok; [|exact Hwp|exact Hdir|exact Hpay1].
    unfold sidecar at 1. rewrite fs_writeFile_Ok; [reflexivity|exact Hws| |].
    + cbn [fs with_fs with_heap].
      rewrite lookup_insert_ne by apply snoc_longer. exact Hdir.
    + cbn [fs with_fs with_heap].
      rewrite lookup_insert_ne
        by (intros H; apply app_inv_head in H; discriminate H).
      exact Hside1.
  - cbn [fs with_fs with_heap].
    rewrite !lookup_insert_ne by apply snoc_longer. exact Hdir.
  - cbn [fs with_fs with_heap].
    rewrite lookup_insert_ne
      by (intros H; apply app_inv_head in H; discriminate H).
    apply lookup_insert_eq.
Qed.

Lemma saveAsset_succeeds_witness :
  let P := Example.platform Example.healthy in
  let saved := saveAsset (Example.store "zstd") "u" "a" [x01; x02; x03]
                 1%positive (Example.fresh Example.png) in
  let again := saveAsset (Example.store "zstd") "u" "a" [x04] 1%positive
                 (snd saved) in
  exists w',
    again = (Ok tt, w')
    /\ fs w' !! ["assets"; "u"; "a"] = Some Dir
    /\ fs w' !! ["assets"; "u"; "a"; "asset.bin.zst"]
       = Some (File [x28; xb5; x2f; xfd; x20; x01; x09; x00; x00; x04]).
Proof.
  intros P saved again.
  refine (saveAsset_succeeds (P := P) (Example.store "zstd") "u" "a" [x04]
            1%positive (set_originalSize 3 Example.png) (snd saved)
            [x28; xb5; x2f; xfd; x20; x01; x09; x00; x00; x04] ".zst"
            eq_refl _ eq_refl eq_refl eq_refl eq_refl _ _ _).
  - apply (bool_decide_unpack _). vm_compute. exact I.
  - intros q data Hq.
    assert (q = ["assets"] \/ q = ["assets"; "u"] \/ q = ["assets"; "u"; "a"])
      as [-> | [-> | ->]]; [|discriminate..].
    apply elem_of_prefixes in Hq as (n & Hn & ->).
    cbn in Hn. destruct n as [|[|[|[|n]]]]; [lia|auto|auto|auto|lia].
  - discriminate.
  - discriminate.
Defined.

(** X6: the size of an asset that [saveAsset] has stored is the length of
    the buffer that was saved, whatever codec stored it and however much it
    compressed: with the sidecar read back as written, [readAssetMetadata]
    returns the saved metadata with [originalSize] set to that length, and
    [getAssetSize] returns that length, under any codec configured at the
    time of the read. *)
Theorem getAssetSize_after_saveAsset `{P : Platform} (cfg cfgR : config)
  (userId assetId : string) (asset : Buffer) (m : loc) (md : AssetMetadata)
  (w w' : world) :
  heap w !! m = Some md ->
  saveAsset cfg userId assetId asset m w = (Ok tt, w') ->
  assetsDir cfgR = assetsDir cfg ->
  let md' := set_originalSize (byteLength asset) md in
  io_fault (SysReadFile (getAssetDir cfg userId assetId ++ ["metadata.json"]))
  = false ->
  JSON_parse (JSON_stringify (metadata_to_json md'))
  = Some (metadata_to_json md') ->
  readAssetMetadata cfgR userId assetId w' = (Ok md', w')
  /\ getAssetSize cfgR userId assetId w' = (Ok (byteLength asset), w').
Proof.
  intros Hm Hsaved Hroot md' Hok Hjson.
  destruct (saveAsset_Ok_inv cfg _ _ _ _ _ _ _ Hm Hsaved)
    as (c & ext & _ & Hfs & _).
  fold md' in Hfs.
  assert (readAssetMetadata cfgR userId assetId w' = (Ok md', w')) as Hmeta.
  { unfold readAssetMetadata, getAssetDir, ROOT_PATH. rewrite Hroot.
    fold (ROOT_PATH cfg). fold (getAssetDir cfg userId assetId).
    rewrite (bind_Ok _ _ _ (JSON_stringify (metadata_to_json md')) w').
    - now apply parse_metadata_stringify.
    - apply fs_readFile_Ok; [exact Hok|].
      rewrite node_at_snoc, Hfs. apply lookup_insert_eq. }
  split; [exact Hmeta|].
  unfold getAssetSize. now rewrite (bind_Ok _ _ _ _ _ Hmeta).
Qed.

Lemma getAssetSize_after_saveAsset_witness :
  let P := Example.platform Example.healthy in
  let asset := Example.ramp 0 100 in
  let w' := snd (saveAsset (Example.store "lz4") "u" "a" asset 1%positive
                   (Example.fresh Example.png)) in
  readAssetMetadata (Example.store "none") "u" "a" w'
  = (Ok (set_originalSize 100 Example.png), w')
  /\ getAssetSize (Example.store "none") "u" "a" w' = (Ok 100, w').
Proof.
  intros P asset w'.
  exact (getAssetSize_after_saveAsset (P := P) (Example.store "lz4")
           (Example.store "none") "u" "a" asset 1%positive Example.png
           (Example.fresh Example.png) w' eq_refl eq_refl eq_refl eq_refl
           eq_refl).
Defined.

(** ** When a save does not go through *)

(** X7: when the codec rejects (the zstd or the lz4 library throws),
    [saveAsset] rejects with that error and writes neither payload nor
    sidecar; but the asset directory has been made by then and stays, and
    the caller's metadata object has been given its [originalSize]. *)
Theorem saveAsset_codec_rejects `{P : Platform} (cfg : config)
  (userId assetId : string) (asset : Buffer) (m : loc) (md : AssetMetadata)
  (w w1 : world) (e : error) :
  heap w !! m = Some md ->
  contentType md ∈ SUPPORTED_ASSET_TYPES ->
  fs_mkdir_recursive (getAssetDir cfg userId assetId) w = (Ok tt, w1) ->
  compress cfg asset (COMPRESSION_TYPE cfg) = Throw e ->
  exists w',
    saveAsset cfg userId assetId asset m w = (Throw e, w')
    /\ fs w' = make_dirs (prefixes (getAssetDir cfg userId assetId)) (fs w)
    /\ (forall name,
          fs w' !! (getAssetDir cfg userId assetId ++ [name])
          = fs w !! (getAssetDir cfg userId assetId ++ [name]))
    /\ heap w' !! m = Some (set_originalSize (byteLength asset) md).
Proof.
  intros Hm Hct Hmk Hc. eexists. split; [|split; [|split]].
  - unfold saveAsset.
    rewrite (bind_Ok _ _ w md w) by (unfold deref; now rewrite Hm).
    unfold Set_has. rewrite bool_decide_eq_true_2 by exact Hct. cbn [negb].
    rewrite (bind_Ok _ _ _ _ _ Hmk).
    rewrite (bind_Ok (assign_originalSize m (byteLength asset)) _ _ tt _ eq_refl).
    rewrite Hc. now rewrite (bind_Throw _ _ _ e _) by reflexivity.
  - apply fs_mkdir_recursive_inv in Hmk as [(_ & _ & ->)|[[e' He] _]];
      [reflexivity | discriminate].
  - intros name.
    apply fs_mkdir_recursive_inv in Hmk as [(_ & _ & ->)|[[e' He] _]];
      [|discriminate].
    cbn [fs with_fs with_heap]. apply make_dirs_other, child_not_on_the_way.
  - cbn [heap with_heap]. rewrite lookup_alter_eq.
    apply fs_mkdir_recursive_inv in Hmk as [(_ & _ & ->)|[[e' He] _]];
      [|discriminate].
    cbn [heap with_fs]. now rewrite Hm.
Qed.

(** ** What a save leaves alone *)


Lemma saveAsset_codec_rejects_witness :
  let P := Scenario.zstd_down in
  exists w',
    saveAsset (Example.store "zstd") "u" "a" [x01; x02; x03] 1%positive
      (Example.fresh Example.png)
    = (Throw CodecError, w')
    /\ fs w' = make_dirs (prefixes ["assets"; "u"; "a"]) ∅
    /\ (forall name, fs w' !! (["assets"; "u"; "a"] ++ [name]) = None)
    /\ heap w' !! 1%positive = Some (set_originalSize 3 Example.png).
Proof.
  intros P.
  refine (saveAsset_codec_rejects (P := P) (Example.store "zstd") "u" "a"
            [x01; x02; x03] 1%positive Example.png (Example.fresh Example.png)
            _ CodecError eq_refl _ eq_refl eq_refl).
  apply (bool_decide_unpack _). vm_compute. exact I.
Defined.

(** ** Ingesting an existing file, continued *)

(** X9: [saveAssetFromFile] validates the content type as [saveAsset]
    does: for metadata whose content type is not in the general allow-list
    it rejects with the unsupported-type error before anything is touched,
    so the source file, the disk and the caller's object are as before. *)
Theorem saveAssetFromFile_unsupported_type `{P : Platform} (cfg : config)
  (userId assetId : string) (assetPath : path) (m : loc) (md : AssetMetadata)
  (w : world) :
  heap w !! m = Some md ->
  contentType md ∉ SUPPORTED_ASSET_TYPES ->
  saveAssetFromFile cfg userId assetId assetPath m w
  = (Throw UnsupportedAssetType, w).
Proof.
  intros Hm Hct. unfold saveAssetFromFile.
  rewrite (bind_Ok _ _ w md w) by (unfold deref; now rewrite Hm).
  unfold Set_has. now rewrite bool_decide_eq_false_2.
Qed.

Lemma saveAssetFromFile_unsupported_type_witness :
  let P := Example.platform Example.healthy in
  let w := with_heap (insert 1%positive Example.zip) Example.uploaded in
  saveAssetFromFile (Example.store "zstd") "u" "a" ["tmp"; "upload"]
    1%positive w
  = (Throw UnsupportedAssetType, w).
Proof.
  intros P w.
  refine (saveAssetFromFile_unsupported_type (P := P) (Example.store "zstd")
            "u" "a" ["tmp"; "upload"] 1%positive Example.zip w eq_refl _).
  intros Hin. apply (bool_decide_pack _) in Hin. vm_compute in Hin.
  exact Hin.
Defined.

(** X10: what [saveAssetFromFile] stores. Once it has returned for a
    source file outside the asset directory, [readAsset] returns the bytes
    of the source, decoded by the codec their own first bytes name, with
    the metadata exactly as the caller gave it: [originalSize] is not
    recomputed and the caller's object is not changed. So [getAssetSize]
    returns the caller's [originalSize] when there is one, whatever the
    length of the file, and the length of the file otherwise. *)
Theorem saveAssetFromFile_then_read `{P : Platform} (cfg cfgR : config)
  (userId assetId : string) (assetPath : path) (m : loc) (md : AssetMetadata)
  (data : Buffer) (w w' : world) :
  let assetDir := getAssetDir cfg userId assetId in
  heap w !! m = Some md ->
  node_at (fs w) assetPath = Some (File data) ->
  (forall name, assetPath <> assetDir ++ [name]) ->
  saveAssetFromFile cfg userId assetId assetPath m w = (Ok tt, w') ->
  assetsDir cfgR = assetsDir cfg ->
  (forall p,
     io_fault (SysAccess p) = false /\ io_fault (SysReadFile p) = false) ->
  io_fault (SysStat (assetDir ++ ["asset.bin"])) = false ->
  JSON_parse (JSON_stringify (metadata_to_json md))
  = Some (metadata_to_json md) ->
  readAsset cfgR userId assetId w'
  = (Ok (decompress data (getDataType data), md), w')
  /\ getAssetSize cfgR userId assetId w'
     = (Ok (match originalSize md with
            | Value n => n
            | _ => byteLength data
            end), w')
  /\ heap w' = heap w.
Proof.
  intros assetDir Hm Hsrc Hout Hsaved Hroot Hreads Hstat Hjson.
  assert (assetPath <> []) as Hne by (intros ->; discriminate Hsrc).
  assert (forall d, node_at d assetPath = d !! assetPath) as Hat
    by (intros d; now destruct assetPath).
  apply saveAssetFromFile_cases in Hsaved
    as [[[e ?] _]|(md0 & ra & w2 & rb & w3 & Hm0 & _ & _ & Ha & Hb & Hend)];
    [discriminate|].
  rewrite Hm in Hm0. injection Hm0 as <-. fold assetDir in Ha, Hb.
  destruct Hend as [(_ & [e ?] & _)|(-> & -> & Hrm)]; [discriminate|].
  apply fs_rm_inv in Hrm as [(_ & ->)|[[e ?] _]]; [|discriminate].
  apply fs_copyFile_inv in Ha as [(_ & _ & data' & Hsrc' & ->)|[[e ?] _]];
    [|discriminate].
  apply fs_writeFile_inv in Hb as [(_ & _ & ->)|[[e ?] _]]; [|discriminate].
  cbn [fs with_fs] in Hsrc'. rewrite Hat in Hsrc, Hsrc'.
  apply make_dirs_file in Hsrc'. rewrite Hsrc in Hsrc'. injection Hsrc' as <-.
  set (w' := with_fs (delete assetPath) _).
  assert (fs w' !! (assetDir ++ ["asset.bin"]) = Some (File data)) as Hpay.
  { unfold w'. cbn [fs with_fs].
    rewrite lookup_delete_ne by (intros Heq; now apply (Hout "asset.bin")).
    rewrite lookup_insert_ne
      by (intros Heq; apply app_inv_head in Heq; discriminate Heq).
    apply lookup_insert_eq. }
  assert (fs w' !! (assetDir ++ ["metadata.json"])
          = Some (File (JSON_stringify (metadata_to_json md)))) as Hside.
  { unfold w'. cbn [fs with_fs].
    rewrite lookup_delete_ne by (intros Heq; now apply (Hout "metadata.json")).
    apply lookup_insert_eq. }
  assert (first_accessible (fs w') assetDir [""; ".zst"; ".lz4"; ".gz"]
          = assetDir ++ ["asset.bin"]) as Hfirst.
  { apply (first_accessible_here _ _ "").
    apply (accessible_file _ _ data); [apply Hreads|].
    now rewrite (node_at_snoc _ assetDir ("asset.bin" +:+ "")). }
  assert (readAssetMetadata cfg userId assetId w' = (Ok md, w')) as Hmeta.
  { unfold readAssetMetadata. fold assetDir.
    rewrite (bind_Ok _ _ _ (JSON_stringify (metadata_to_json md)) w').
    - now apply parse_metadata_stringify.
    - apply fs_readFile_Ok; [apply Hreads|]. now rewrite node_at_snoc. }
  split; [|split].
  - rewrite (readAsset_root cfgR cfg userId assetId w' Hroot).
    apply (readAsset_run cfg userId assetId w' data
             (JSON_stringify (metadata_to_json md)) md).
    + fold assetDir. rewrite Hfirst. apply snoc_not_nil.
    + fold assetDir. rewrite Hfirst.
      apply fs_readFile_Ok; [apply Hreads|]. now rewrite node_at_snoc.
    + fold assetDir. apply fs_readFile_Ok; [apply Hreads|].
      now rewrite node_at_snoc.
    + now apply parse_metadata_stringify.
  - assert (getAssetSize cfgR userId assetId w'
            = getAssetSize cfg userId assetId w') as ->.
    { unfold getAssetSize, readAssetMetadata, getAssetDir, ROOT_PATH.
      now rewrite Hroot. }
    unfold getAssetSize. rewrite (bind_Ok _ _ _ _ _ Hmeta).
    assert ((assetPath <- getAssetPath (getAssetDir cfg userId assetId) ;;
             stat <- fs_stat assetPath ;; ret (stat_size stat)) w'
            = (Ok (byteLength data), w')) as Hfallback.
    { rewrite (bind_Ok _ _ _ _ _ (getAssetPath_run _ w')).
      fold assetDir. rewrite Hfirst.
      rewrite (bind_Ok _ _ _ _ _
                 (fs_stat_file (assetDir ++ ["asset.bin"]) data w' Hstat
                    ltac:(now rewrite node_at_snoc))).
      reflexivity. }
    now destruct (originalSize md).
  - reflexivity.
Qed.

Lemma saveAssetFromFile_then_read_witness :
  let P := Example.platform Example.healthy in
  let claimed := set_originalSize 999 Example.mp4 in
  let w := with_heap (insert 1%positive claimed) Example.uploaded in
  let w' := snd (saveAssetFromFile (Example.store "zstd") "u" "a"
                   ["tmp"; "upload"] 1%positive w) in
  readAsset (Example.store "lz4") "u" "a" w'
  = (Ok ([x00; x01; x02], claimed), w')
  /\ getAssetSize (Example.store "lz4") "u" "a" w' = (Ok 999, w')
  /\ heap w' = heap w.
Proof.
  intros P claimed w w'.
  refine (saveAssetFromFile_then_read (P := P) (Example.store "zstd")
            (Example.store "lz4") "u" "a" ["tmp"; "upload"] 1%positive
            claimed [x00; x01; x02] w w' eq_refl eq_refl _ eq_refl eq_refl
            (fun _ => conj eq_refl eq_refl) eq_refl eq_refl).
  intros name. discriminate.
Defined.

(** ** The codecs, continued *)

Lemma subarray_not_longer (b : Buffer) (s e : Z) :
  (length (subarray b s e) <= length b)%nat.
Proof.
  unfold subarray. rewrite length_take, length_drop. lia.
Qed.

(** X11: [decompress] never returns more bytes for an lz4 payload than
    the payload has: the output buffer it hands to [lz4.decodeBlock] is
    allocated with the length of the compressed data, and the result is a
    slice of that buffer (or, when the library throws, the data itself).
    It is assumed that the library writes into the buffer it is given and
    does not resize it. *)
Theorem decompress_lz4_not_longer `{P : Platform} (data : Buffer) :
  (forall output size,
     lz4_decodeBlock data (Buffer_alloc (byteLength data)) = Some (output, size) ->
     length output = length data) ->
  byteLength (decompress data lz4) <= byteLength data.
Proof.
  intros Hplace. unfold decompress, byteLength.
  destruct (lz4_decodeBlock data (Buffer_alloc (Z.of_nat (length data))))
    as [[output size]|] eqn:Hdec; [|lia].
  pose proof (subarray_not_longer output 0 size) as Hle.
  rewrite (Hplace output size Hdec) in Hle. lia.
Qed.

Lemma decompress_lz4_not_longer_witness :
  let P := Example.platform Example.healthy in
  let block := [xf0; x05; x41; x41; x41; x41; x41; x41; x41; x41; x41; x41;
                x41; x41; x41; x41; x41; x41; x41; x41; x41; x41] in
  byteLength (decompress block lz4) <= byteLength block.
Proof.
  intros P block.
  refine (decompress_lz4_not_longer (P := P) block _).
  intros output size H. vm_compute in H. injection H as <- _. reflexivity.
Defined.


(** ** Deleting *)

Lemma is_prefix_app (p q : path) :
  is_prefix p q = true <-> exists rest, q = p ++ rest.
Proof.
  revert q. induction p as [|x p IH]; intros q; cbn.
  - split; [eauto | reflexivity].
  - destruct q as [|y q].
    + split; [discriminate | intros [rest Hrest]; discriminate Hrest].
    + rewrite andb_true_iff, String.eqb_eq, IH. split.
      * intros [-> [rest ->]]. now exists rest.
      * intros [rest [= -> ->]]. eauto.
Qed.


Lemma remove_tree_below (p : path) (d : gmap path node) (rest : path) :
  remove_tree p d !! (p ++ rest) = None.
Proof.
  unfold remove_tree. apply map_lookup_filter_None. right.
  intros n _. cbn.
  assert (is_prefix p (p ++ rest) = true) as -> by (apply is_prefix_app; eauto).
  discriminate.
Qed.


Section DeleteFacts.
Context {P : Platform} (cfg : config).

Lemma fs_rm_recursive_inv p w r w' :
  fs_rm_recursive p w = (r, w') ->
  (r = Ok tt /\ is_Some (node_at (fs w) p) /\ w' = with_fs (remove_tree p) w)
  \/ ((exists e, r = Throw e) /\ w' = w).
Proof.
  intros [(_ & -> & ->)|[_ H]]%syscall_run_inv; [right; eauto|].
  destruct (node_at (fs w) p) as [n|] eqn:Hn; inversion H; subst; eauto.
Qed.


Lemma fs_rm_recursive_missing p w :
  node_at (fs w) p = None ->
  exists code, fs_rm_recursive p w = (Throw (FsError code (SysRm p)), w).
Proof.
  intros Hn. unfold fs_rm_recursive, syscall_run. rewrite Hn.
  destruct (io_fault (SysRm p)); eauto.
Qed.


Lemma no_candidates_below (userId assetId : string) (d : gmap path node) :
  (forall rest, d !! (getAssetDir cfg userId assetId ++ rest) = None) ->
  forall ext, ext ∈ [""; ".zst"; ".lz4"; ".gz"] ->
    d !! (getAssetDir cfg userId assetId ++ ["asset.bin" +:+ ext]) = None.
Proof. intros H ext _. apply H. Qed.

End DeleteFacts.



(** X14: after a [deleteAsset] that returned, the asset is gone for every
    reader: [readAsset] rejects with asset-file-not-found, and
    [readAssetMetadata] and a second [deleteAsset] reject with file-system
    errors (deleting is not idempotent), while [silentDeleteAsset] still
    returns. *)
Theorem deleteAsset_then `{P : Platform} (cfg : config)
  (userId assetId : string) (w w' : world) :
  deleteAsset cfg userId assetId w = (Ok tt, w') ->
  readAsset cfg userId assetId w' = (Throw (AssetFileNotFound assetId), w')
  /\ (exists code call,
        readAssetMetadata cfg userId assetId w'
        = (Throw (FsError code call), w'))
  /\ (exists code call,
        deleteAsset cfg userId assetId w' = (Throw (FsError code call), w'))
  /\ silentDeleteAsset cfg userId (Some assetId) w' = (Ok tt, w').
Proof.
  intros Hdel. unfold deleteAsset in Hdel.
  apply fs_rm_recursive_inv in Hdel as [(_ & _ & ->)|[[e ?] _]];
    [|discriminate].
  set (assetDir := getAssetDir cfg userId assetId).
  set (w' := with_fs (remove_tree assetDir) w).
  assert (forall rest, fs w' !! (assetDir ++ rest) = None) as Hgone
    by (intros rest; apply remove_tree_below).
  assert (node_at (fs w') assetDir = None) as Hdir.
  { pose proof (getAssetDir_not_nil cfg userId assetId) as Hne.
    fold assetDir in Hne. destruct assetDir as [|x q] eqn:Hd; [easy|].
    cbn [node_at]. rewrite <- (app_nil_r (x :: q)). apply Hgone. }
  assert (exists code,
            deleteAsset cfg userId assetId w'
            = (Throw (FsError code (SysRm assetDir)), w')) as [code Hagain]
    by (apply fs_rm_recursive_missing; exact Hdir).
  split; [|split; [|split]].
  - unfold readAsset. fold assetDir.
    rewrite (bind_Ok _ _ _ _ _ (getAssetPath_run _ w')).
    rewrite first_accessible_none; [reflexivity|]. intros ext _. apply Hgone.
  - unfold readAssetMetadata. fold assetDir.
    unfold bind, fs_readFile, syscall_run.
    rewrite node_at_snoc, Hgone.
    destruct (io_fault (SysReadFile (assetDir ++ ["metadata.json"]))); eauto.
  - eauto.
  - unfold silentDeleteAsset.
    destruct (String.eqb assetId ""); [reflexivity|].
    unfold try_catch. now rewrite Hagain.
Qed.

Lemma deleteAsset_then_witness :
  let P := Example.platform Example.healthy in
  let w' := snd (deleteAsset (Example.store "zstd") "u" "a" Scenario.library) in
  readAsset (Example.store "zstd") "u" "a" w'
  = (Throw (AssetFileNotFound "a"), w').
Proof.
  intros P w'.
  exact (proj1 (deleteAsset_then (P := P) (Example.store "zstd") "u" "a"
                  Scenario.library w' eq_refl)).
Defined.

(** X15: [silentDeleteAsset] never rejects. Without an identifier
    ([undefined] or the empty string) it does nothing; with one it leaves
    the world [deleteAsset] leaves, which is the world as it was when
    [deleteAsset] fails. *)
Theorem silentDeleteAsset_never_rejects `{P : Platform} (cfg : config)
  (userId : string) (assetId : option string) (w : world) :
  exists w',
    silentDeleteAsset cfg userId assetId w = (Ok tt, w')
    /\ (assetId = None \/ assetId = Some "" -> w' = w)
    /\ (forall a, assetId = Some a -> a <> "" ->
                  w' = snd (deleteAsset cfg userId a w))
    /\ (forall a e, assetId = Some a ->
                    fst (deleteAsset cfg userId a w) = Throw e -> w' = w).
Proof.
  unfold silentDeleteAsset. destruct assetId as [a|].
  2:{ exists w. split; [reflexivity|]. split; [reflexivity|].
      split; discriminate. }
  destruct (String.eqb_spec a "") as [->|Hne].
  { exists w. split; [reflexivity|]. split; [reflexivity|]. split.
    - intros a [= <-] Hne. now destruct Hne.
    - reflexivity. }
  unfold try_catch.
  destruct (deleteAsset cfg userId a w) as [[[]|e] w1] eqn:Hdel.
  - exists w1. split; [reflexivity|]. split; [|split].
    + intros [H|[= H]]; [discriminate | now destruct Hne].
    + intros a' [= <-] _. now rewrite Hdel.
    + intros a' e [= <-]. rewrite Hdel. discriminate.
  - assert (w1 = w) as ->.
    { unfold deleteAsset in Hdel.
      apply fs_rm_recursive_inv in Hdel as [(? & _)|[_ ->]];
        [discriminate | reflexivity]. }
    exists w. split; [reflexivity|]. split; [reflexivity|]. split.
    + intros a' [= <-] _. now rewrite Hdel.
    + reflexivity.
Qed.


(** ** How a save can fail *)

Section SaveErrors.
Context {P : Platform}.

Lemma put_file_error call p data w e w' :
  put_file call p data w = (Throw e, w') -> exists code, e = FsError code call.
Proof.
  unfold put_file. destruct p as [|s p]; [intros [= <- _]; eauto|].
  destruct (fs w !! (s :: p)) as [[|?]|];
    try destruct (is_directory _ _); intros [= <- _]; eauto; discriminate.
Qed.

Lemma fs_writeFile_error p data w e w' :
  fs_writeFile p data w = (Throw e, w') ->
  exists code, e = FsError code (SysWriteFile p).
Proof.
  intros [(_ & [= ->] & _)|[_ H]]%syscall_run_inv; [eauto|].
  now apply put_file_error in H.
Qed.

Lemma fs_mkdir_recursive_error p w e w' :
  fs_mkdir_recursive p w = (Throw e, w') ->
  exists code, e = FsError code (SysMkdir p).
Proof.
  intros [(_ & [= ->] & _)|[_ H]]%syscall_run_inv; [eauto|].
  destruct p as [|s p]; [inversion H; eauto|].
  destruct (existsb _ _); inversion H; eauto.
Qed.

Lemma compress_error cfg data type e :
  compress cfg data type = Throw e -> e = CodecError.
Proof.
  unfold compress. destruct (String.eqb type "zstd").
  { destruct (zstd_compress _ _); now intros [= <-]. }
  destruct (String.eqb type "lz4").
  { destruct (lz4_encodeBlockHC _ _ _) as [[o n]|]; now intros [= <-]. }
  destruct (String.eqb type "gzip"); discriminate.
Qed.

Lemma saveAsset_error_cases cfg userId assetId asset m w e w' :
  saveAsset cfg userId assetId asset m w = (Throw e, w') ->
  let assetDir := getAssetDir cfg userId assetId in
  (e = TypeError /\ heap w !! m = None /\ w' = w)
  \/ (e = UnsupportedAssetType /\ w' = w
      /\ exists md, heap w !! m = Some md
                    /\ contentType md ∉ SUPPORTED_ASSET_TYPES)
  \/ (exists code, e = FsError code (SysMkdir assetDir) /\ w' = w)
  \/ e = CodecError
  \/ (exists code name, e = FsError code (SysWriteFile (assetDir ++ [name]))).
Proof.
  intros H assetDir. unfold saveAsset in H. fold assetDir in H.
  apply bind_inv in H as [(md & w0 & Hderef & H)|(e0 & Hderef & [= ->])];
    unfold deref, or_throw in Hderef;
    destruct (heap w !! m) as [md0|] eqn:Hm; inversion Hderef; subst; auto.
  unfold Set_has in H. case_bool_decide as Hct; cbn [negb] in H.
  2:{ inversion H; subst. right. left. eauto. }
  apply bind_inv in H as [([] & w1 & Hmk & H)|(e0 & Hmk & [= ->])].
  2:{ right. right. left.
      destruct (fs_mkdir_recursive_error _ _ _ _ Hmk) as [code ->].
      apply fs_mkdir_recursive_inv in Hmk as [(? & _)|[_ ->]];
        [discriminate | eauto]. }
  rewrite (bind_Ok (assign_originalSize m (byteLength asset)) _ _ tt _ eq_refl)
    in H.
  apply bind_inv in H as [([c ext] & w2 & Hc & H)|(e0 & Hc & [= ->])].
  2:{ right. right. right. left. inversion Hc as [[Hc' Hw]].
      now apply compress_error in Hc'. }
  apply bind_inv in H as [(md1 & w3 & Hd & H)|(e0 & Hd & [= ->])].
  2:{ unfold deref, or_throw in Hd. inversion Hc; subst.
      apply fs_mkdir_recursive_inv in Hmk as [(_ & _ & ->)|[[e' ?] _]];
        [|discriminate].
      cbn [heap with_heap with_fs] in Hd. rewrite lookup_alter_eq, Hm in Hd.
      discriminate Hd. }
  apply bind_inv in H as [(x & w4 & Hall & H)|(e0 & Hall & [= ->])];
    [discriminate H|].
  apply Promise_all_inv in Hall as (ra & w5 & rb & Ha & Hb & Hr).
  right. right. right. right.
  destruct ra as [[]|ea].
  - destruct rb as [[]|eb]; [discriminate Hr|]. injection Hr as ->.
    destruct (fs_writeFile_error _ _ _ _ _ Hb) as [code ->]. eauto.
  - injection Hr as ->.
    destruct (fs_writeFile_error _ _ _ _ _ Ha) as [code ->]. eauto.
Qed.

End SaveErrors.

(** X17: the ways [saveAsset] can reject. The error is the
    unsupported-type error exactly when the content type is not in the
    general allow-list, and then nothing has changed; otherwise it is the
    file-system error of the [mkdir] of the asset directory (nothing has
    changed), the codec's error, or the file-system error of a [writeFile]
    directly inside the asset directory. (A metadata argument that is no
    object gives a TypeError.) *)
Theorem saveAsset_rejections `{P : Platform} (cfg : config)
  (userId assetId : string) (asset : Buffer) (m : loc) (md : AssetMetadata)
  (w : world) :
  heap w !! m = Some md ->
  let assetDir := getAssetDir cfg userId assetId in
  (contentType md ∉ SUPPORTED_ASSET_TYPES <->
   fst (saveAsset cfg userId assetId asset m w) = Throw UnsupportedAssetType)
  /\ (forall e w',
        saveAsset cfg userId assetId asset m w = (Throw e, w') ->
        (e = UnsupportedAssetType /\ w' = w)
        \/ (exists code, e = FsError code (SysMkdir assetDir) /\ w' = w)
        \/ e = CodecError
        \/ (exists code name,
              e = FsError code (SysWriteFile (assetDir ++ [name])))).
Proof.
  intros Hm assetDir. split; [split|].
  - intros Hct. unfold saveAsset.
    rewrite (bind_Ok _ _ w md w) by (unfold deref; now rewrite Hm).
    unfold Set_has. now rewrite bool_decide_eq_false_2.
  - intros H.
    destruct (saveAsset cfg userId assetId asset m w) as [r w'] eqn:Hrun.
    cbn [fst] in H. subst r.
    destruct (saveAsset_error_cases _ _ _ _ _ _ _ _ Hrun)
      as [(? & _)|[(_ & _ & md0 & Hm0 & Hct)|[(c & ? & _)|[?|(c & n & ?)]]]];
      try discriminate.
    rewrite Hm in Hm0. now injection Hm0 as <-.
  - intros e w' Hrun.
    destruct (saveAsset_error_cases _ _ _ _ _ _ _ _ Hrun)
      as [(_ & Hnone & _)|[(-> & -> & _)|[(c & -> & ->)|[->|(c & n & ->)]]]];
      eauto 6.
    rewrite Hm in Hnone. discriminate Hnone.
Qed.

Lemma saveAsset_rejections_witness :
  let P := Example.platform Example.healthy in
  fst (saveAsset (Example.store "zstd") "u" "a" [x50; x4b] 1%positive
         (Example.fresh Example.zip))
  = Throw UnsupportedAssetType.
Proof.
  intros P.
  refine (proj1 (proj1 (saveAsset_rejections (P := P) (Example.store "zstd")
                          "u" "a" [x50; x4b] 1%positive Example.zip
                          (Example.fresh Example.zip) eq_refl)) _).
  intros Hin. apply (bool_decide_pack _) in Hin. vm_compute in Hin.
  exact Hin.
Defined.

(** ** Screenshots *)

Lemma saveAsset_heap_elsewhere `{P : Platform} cfg userId assetId asset m w r w'
  (l : loc) :
  saveAsset cfg userId assetId asset m w = (r, w') ->
  l <> m -> heap w' !! l = heap w !! l.
Proof.
  intros H Hl. unfold saveAsset in H.
  assert (forall w2, heap w2 = alter (set_originalSize (byteLength asset)) m (heap w)
                     -> heap w2 !! l = heap w !! l) as Halter.
  { intros w2 ->. now apply lookup_alter_ne. }
  apply bind_inv in H as [(md & w0 & Hderef & H)|(e & Hderef & _)];
    unfold deref, or_throw in Hderef;
    destruct (heap w !! m) as [md0|]; inversion Hderef; subst; auto.
  destruct (negb (Set_has SUPPORTED_ASSET_TYPES (contentType md)));
    [now inversion H|].
  apply bind_inv in H as [([] & w1 & Hmk & H)|(e & Hmk & _)];
    apply fs_mkdir_recursive_inv in Hmk as [(? & _ & ->)|[[e' ?] ->]];
    try discriminate; auto.
  rewrite (bind_Ok (assign_originalSize m (byteLength asset)) _ _ tt _ eq_refl)
    in H.
  apply bind_inv in H as [([c ext] & w2 & Hc & H)|(e & Hc & _)];
    inversion Hc; subst; [|now apply Halter].
  apply bind_inv in H as [(md1 & w3 & Hd & H)|(e & Hd & _)];
    unfold deref, or_throw in Hd;
    destruct (heap _ !! m); inversion Hd; subst; [|now apply Halter].
  apply bind_inv in H as [(x & w4 & Hall & H)|(e & Hall & _)];
    [inversion H; subst|];
    apply Promise_all_inv in Hall as (ra & w5 & rb & Ha & Hb & _);
    apply fs_writeFile_inv in Ha as [(_ & _ & ->)|[_ ->]];
    apply fs_writeFile_inv in Hb as [(_ & _ & ->)|[_ ->]];
    now apply Halter.
Qed.

(** X18: [storeScreenshot] returns null and does nothing when the
    crawler's flag is off or no screenshot is given. Otherwise it saves the
    buffer as an "image/png" asset named "screenshot.png" under the fresh
    identifier: it never returns null, never rejects with the
    unsupported-type error, and leaves the callers' objects alone. When it
    returns, the result carries the identifier, the type, the name and the
    byte length of the buffer; the sidecar on disk is the serialised
    metadata with that byte length as the original size, and the payload is
    the buffer as the configured codec compressed it. *)
Theorem storeScreenshot_outcomes `{P : Platform} (cfg : config)
  (enabled : bool) (uuid : string) (screenshot : option Buffer)
  (userId jobId : string) (w : world) :
  (enabled = false \/ screenshot = None ->
   storeScreenshot cfg enabled uuid screenshot userId jobId w = (Ok None, w))
  /\ (forall data r w',
        enabled = true -> screenshot = Some data ->
        storeScreenshot cfg enabled uuid screenshot userId jobId w = (r, w') ->
        let assetDir := getAssetDir cfg userId uuid in
        let metadata := {| contentType := "image/png";
                           fileName := Value "screenshot.png";
                           originalSize := Value (byteLength data) |} in
        r <> Ok None
        /\ r <> Throw UnsupportedAssetType
        /\ (forall l md, heap w !! l = Some md -> heap w' !! l = Some md)
        /\ (forall stored, r = Ok stored ->
              stored = Some {| stored_assetId := uuid;
                               stored_contentType := "image/png";
                               stored_fileName := "screenshot.png";
                               stored_size := byteLength data |}
              /\ fs w' !! (assetDir ++ ["metadata.json"])
                 = Some (File (JSON_stringify (metadata_to_json metadata)))
              /\ exists compressed extension,
                   compress cfg data (COMPRESSION_TYPE cfg)
                   = Ok (compressed, extension)
                   /\ fs w' !! (assetDir ++ ["asset.bin" +:+ extension])
                      = Some (File compressed))).
Proof.
  split.
  - intros [-> | ->]; [reflexivity|]. unfold storeScreenshot.
    now destruct (negb enabled).
  - intros data r w' -> -> H assetDir metadata.
    unfold storeScreenshot, newAssetId in H. cbn [negb] in H.
    fold metadata in H.
    set (l := fresh (dom (heap w))) in *.
    set (w0 := with_heap (insert l metadata) w).
    assert (new_object metadata w = (Ok l, w0)) as Hnew by reflexivity.
    rewrite (bind_Ok _ _ _ _ _ Hnew) in H.
    assert (heap w0 !! l = Some metadata) as Hl
      by (cbn [w0 heap with_heap]; apply lookup_insert_eq).
    assert (forall l0 md, heap w !! l0 = Some md -> l0 <> l) as Hfresh.
    { intros l0 md Hsome ->. apply (is_fresh (dom (heap w))).
      fold l. apply elem_of_dom. eauto. }
    assert (forall l0 md w1, heap w1 !! l0 = heap w0 !! l0 ->
                             heap w !! l0 = Some md -> heap w1 !! l0 = Some md)
      as Hkeep.
    { intros l0 md w1 -> Hsome. cbn [w0 heap with_heap].
      rewrite lookup_insert_ne; [exact Hsome|].
      intros <-. now apply (Hfresh _ _ Hsome). }
    apply bind_inv in H as [([] & w1 & Hsave & H)|(e & Hsave & ->)].
    + inversion H; subst. split; [discriminate|]. split; [discriminate|].
      split.
      { intros l0 md Hsome. apply (Hkeep l0 md); [|exact Hsome].
        apply (saveAsset_heap_elsewhere _ _ _ _ _ _ _ _ l0 Hsave).
        now apply (Hfresh _ _ Hsome). }
      intros stored [= <-]. split; [reflexivity|].
      apply (saveAsset_Ok_inv cfg _ _ _ _ _ _ _ Hl) in Hsave
        as (compressed & extension & Hc & Hfs & _).
      fold assetDir in Hfs. rewrite Hfs. split.
      * apply lookup_insert_eq.
      * exists compressed, extension. split; [exact Hc|].
        rewrite lookup_insert_ne by apply sidecar_not_payload.
        apply lookup_insert_eq.
    + split; [discriminate|]. split.
      { intros [= ->].
        destruct (saveAsset_error_cases _ _ _ _ _ _ _ _ Hsave)
          as [(? & _)|[(_ & _ & md0 & Hm0 & Hct)|[(c & ? & _)|[?|(c & n & ?)]]]];
          try discriminate.
        rewrite Hl in Hm0. injection Hm0 as <-. apply Hct.
        apply (bool_decide_unpack _). vm_compute. exact I. }
      split; [|discriminate].
      intros l0 md Hsome. apply (Hkeep l0 md); [|exact Hsome].
      apply (saveAsset_heap_elsewhere _ _ _ _ _ _ _ _ l0 Hsave).
      now apply (Hfresh _ _ Hsome).
Qed.

(** ** Listing *)

Section ListingFacts.
Context {P : Platform} (cfg : config).

Lemma getAllAssets_visit_inv file w r w' :
  getAllAssets_visit cfg file w = (r, w') ->
  w' = w
  /\ ((exists userId assetId size metadata,
         take 2 file = [userId; assetId]
         /\ getAssetSize cfg userId assetId w = (Ok size, w)
         /\ readAssetMetadata cfg userId assetId w = (Ok metadata, w)
         /\ r = Ok {| summary_userId := userId;
                      summary_assetId := assetId;
                      summary_metadata := metadata;
                      summary_size := size |})
      \/ exists e, r = Throw e).
Proof.
  unfold getAllAssets_visit.
  destruct (take 2 file) as [|userId [|assetId [|]]];
    try (intros [= <- <-]; split; [reflexivity | right; eauto]).
  intros H.
  apply bind_inv in H as [([size metadata] & w1 & Hall & H)|(e & Hall & ->)];
    apply Promise_all_inv in Hall as (ra & w2 & rb & Ha & Hb & Hr);
    pose proof (getAssetSize_world _ _ _ _ _ _ Ha) as ->;
    pose proof (readAssetMetadata_world _ _ _ _ _ _ Hb) as ->.
  - inversion H; subst. split; [reflexivity|]. left.
    destruct ra as [x|]; [|discriminate]. destruct rb as [y|]; [|discriminate].
    injection Hr as <- <-. now exists userId, assetId, size, metadata.
  - split; [reflexivity|]. right. eauto.
Qed.

Lemma getAllAssets_visit_world file w :
  snd (getAllAssets_visit cfg file w) = w.
Proof.
  destruct (getAllAssets_visit cfg file w) as [r w'] eqn:H.
  now apply getAllAssets_visit_inv in H as [-> _].
Qed.

Lemma getAllAssets_drain_app pre post w :
  getAllAssets_drain cfg (pre ++ post) w
  = match getAllAssets_drain cfg pre w with
    | (summaries, Ok _) =>
        let (more, r) := getAllAssets_drain cfg post w in (summaries ++ more, r)
    | (summaries, Throw e) => (summaries, Throw e)
    end.
Proof.
  induction pre as [|file pre IH]; cbn [app getAllAssets_drain].
  { now destruct (getAllAssets_drain cfg post w) as [more r]. }
  pose proof (getAllAssets_visit_world file w) as Hw.
  destruct (getAllAssets_visit cfg file w) as [[summary|e] w1];
    [|reflexivity].
  cbn [snd] in Hw. subst w1. rewrite IH.
  destruct (getAllAssets_drain cfg pre w) as [summaries [[]|e]];
    [|reflexivity].
  now destruct (getAllAssets_drain cfg post w) as [more r].
Qed.

Lemma getAllAssets_drain_all files w :
  (forall file, file ∈ files ->
     exists summary, fst (getAllAssets_visit cfg file w) = Ok summary) ->
  getAllAssets_drain cfg files w
  = (omap (fun file => match fst (getAllAssets_visit cfg file w) with
                       | Ok summary => Some summary
                       | Throw _ => None
                       end) files, Ok tt)
    /\ length (fst (getAllAssets_drain cfg files w)) = length files.
Proof.
  induction files as [|file files IH]; intros Hall; [now split|].
  cbn [getAllAssets_drain omap list_omap].
  destruct (Hall file) as [summary Hs]; [now left|].
  pose proof (getAllAssets_visit_world file w) as Hw.
  destruct (getAllAssets_visit cfg file w) as [[s|e] w1]; [|discriminate].
  cbn [fst snd] in *. subst w1.
  destruct IH as [IH1 IH2]; [intros f Hf; apply Hall; now right|].
  rewrite IH1 in *. cbn [fst length] in *. split; [reflexivity|].
  now rewrite IH2.
Qed.

End ListingFacts.

(** X19: what [getAllAssets] yields for a file the glob delivers. The
    visit of a file changes nothing. When it yields, the file has at least
    two segments, the summary names the first two as user and asset, and its
    size and metadata are the answers of [getAssetSize] and
    [readAssetMetadata] for that pair; so two files delivered from one asset
    directory (a payload and a leftover beside it) yield the same summary
    twice. A file directly under the root, with fewer than two segments,
    makes the sequence reject with a TypeError. *)
Theorem getAllAssets_visit_outcomes `{P : Platform} (cfg : config)
  (file : path) (w : world) :
  snd (getAllAssets_visit cfg file w) = w
  /\ (forall summary,
        fst (getAllAssets_visit cfg file w) = Ok summary ->
        take 2 file = [summary_userId summary; summary_assetId summary]
        /\ getAssetSize cfg (summary_userId summary) (summary_assetId summary) w
           = (Ok (summary_size summary), w)
        /\ readAssetMetadata cfg (summary_userId summary)
             (summary_assetId summary) w
           = (Ok (summary_metadata summary), w))
  /\ (forall userId assetId name other rest,
        file = [userId; assetId; name] ->
        getAllAssets_drain cfg (file :: [userId; assetId; other] :: rest) w
        = match getAllAssets_visit cfg file w with
          | (Ok summary, _) =>
              let (more, r) := getAllAssets_drain cfg rest w in
              (summary :: summary :: more, r)
          | (Throw e, _) => ([], Throw e)
          end)
  /\ ((length file < 2)%nat ->
      getAllAssets_visit cfg file w = (Throw TypeError, w)).
Proof.
  split; [apply getAllAssets_visit_world|]. split; [|split].
  - intros summary Hs.
    destruct (getAllAssets_visit cfg file w) as [r w'] eqn:H.
    cbn [fst] in Hs. subst r.
    apply getAllAssets_visit_inv in H
      as [_ [(u & a & size & md & Htake & Hsize & Hmd & [= ->])|[e ?]]];
      [|discriminate].
    now cbn.
  - intros userId assetId name other rest ->.
    cbn [getAllAssets_drain].
    pose proof (getAllAssets_visit_world cfg [userId; assetId; name] w) as Hw.
    change (getAllAssets_visit cfg [userId; assetId; other])
      with (getAllAssets_visit cfg [userId; assetId; name]).
    destruct (getAllAssets_visit cfg [userId; assetId; name] w)
      as [[summary|e] w1] eqn:Hv; [|reflexivity].
    cbn [snd] in Hw. subst w1. rewrite Hv.
    now destruct (getAllAssets_drain cfg rest w) as [more r].
  - intros Hshort. destruct file as [|s [|s' file]]; [reflexivity..|].
    cbn in Hshort. lia.
Qed.

(** X20: reading [getAllAssets] to its end. When every delivered file
    can be summarised, the consumer receives one summary per file, in the
    order of delivery, and the sequence ends normally. When the visit of some
    file rejects (a missing or unreadable sidecar, say), the consumer has
    received the summaries of the files before it, and the sequence ends with
    that error: the files delivered after it are never visited. *)
Theorem getAllAssets_drain_outcomes `{P : Platform} (cfg : config)
  (w : world) :
  let summary_of file :=
    match fst (getAllAssets_visit cfg file w) with
    | Ok summary => Some summary
    | Throw _ => None
    end in
  (forall files,
     (forall file, file ∈ files -> is_Some (summary_of file)) ->
     getAllAssets_drain cfg files w = (omap summary_of files, Ok tt)
     /\ length (omap summary_of files) = length files)
  /\ (forall before file after e,
        (forall f, f ∈ before -> is_Some (summary_of f)) ->
        fst (getAllAssets_visit cfg file w) = Throw e ->
        getAllAssets_drain cfg (before ++ file :: after) w
        = (omap summary_of before, Throw e)
        /\ length (omap summary_of before) = length before).
Proof.
  intros summary_of.
  assert (forall files,
            (forall file, file ∈ files -> is_Some (summary_of file)) ->
            getAllAssets_drain cfg files w = (omap summary_of files, Ok tt)
            /\ length (omap summary_of files) = length files) as Hall.
  { intros files Hfiles.
    destruct (getAllAssets_drain_all cfg files w) as [Hrun Hlen].
    - intros file Hin. destruct (Hfiles file Hin) as [s Hs].
      unfold summary_of in Hs.
      destruct (fst (getAllAssets_visit cfg file w)); [eauto | discriminate].
    - split; [exact Hrun|]. rewrite Hrun in Hlen. exact Hlen. }
  split; [exact Hall|].
  intros before file after e Hbefore Hfile.
  destruct (Hall before Hbefore) as [Hrun Hlen]. split; [|exact Hlen].
  rewrite getAllAssets_drain_app, Hrun. cbn [getAllAssets_drain].
  destruct (getAllAssets_visit cfg file w) as [[s|e'] w1]; [discriminate|].
  cbn [fst] in Hfile. injection Hfile as ->.
  now rewrite app_nil_r.
Qed.
